(** * GameOfLife: a compute-shader implementation of Conway's Game of Life

    Shallow embedding of [GameOfLife/gameoflife.comp] (the GLSL compute
    shader) and of [GameOfLife/GameOfLife.cpp] (the host program), and the
    properties of the transition rule, the tick, the loader, the start-up
    error paths and the viewport controls. *)

From Stdlib Require Import ZArith Lia List Bool String Ascii Strings.Byte SpecFloat
  Permutation.
Import ListNotations.
Local Open Scope Z_scope.

(** ** 32-bit floats (IEEE 754 binary32), as the shader's [float] and the
    host's [float] *)

Module F32.

Definition prec : Z := 24.
Definition emax : Z := 128.

Definition float : Type := spec_float.

(** A value the 32-bit format can store: canonical mantissa and exponent. *)
Definition valid (f : float) : bool := valid_binary prec emax f.

Definition zero : float := S754_zero false.
Definition one : float := S754_finite false 8388608 (-23).

Definition add : float -> float -> float := SFadd prec emax.
Definition sub : float -> float -> float := SFsub prec emax.
Definition mul : float -> float -> float := SFmul prec emax.
Definition div : float -> float -> float := SFdiv prec emax.

Definition leb : float -> float -> bool := SFleb.
Definition ltb : float -> float -> bool := SFltb.

(** Conversion of an integer to the nearest float (ties to even). *)
Definition of_int (z : Z) : float := binary_normalize prec emax z 0 false.

(** The integer part of a finite float (rounding toward zero); [None] for
    an infinity or a NaN. *)
Definition trunc (f : float) : option Z :=
  match f with
  | S754_zero _ => Some 0
  | S754_finite s m e =>
      let a := if 0 <=? e then Zpos m * 2 ^ e else Zpos m / 2 ^ (- e) in
      Some (if s then - a else a)
  | S754_infinity _ => None
  | S754_nan => None
  end.

End F32.

(** ** 32-bit signed integers (GLSL [int]): [Z] with the wrap-around
    written out *)

Module I32.

Definition min_int : Z := - 2 ^ 31.
Definition max_int : Z := 2 ^ 31 - 1.

Definition in_range (z : Z) : bool := (min_int <=? z) && (z <=? max_int).

Definition wrap (z : Z) : Z := (z + 2 ^ 31) mod 2 ^ 32 - 2 ^ 31.

Definition add (a b : Z) : Z := wrap (a + b).
Definition sub (a b : Z) : Z := wrap (a - b).
Definition abs (a : Z) : Z := wrap (Z.abs a).
Definition max (a b : Z) : Z := Z.max a b.

End I32.

(** ** What GLSL leaves to the implementation

    [int(f)] drops the fractional part of [f]; the result is undefined when
    the integer part does not fit an [int], and for an infinity or a NaN.
    The value an implementation produces there is a parameter of the
    model. *)

Class GLSLImpl : Type := { undefined_int : F32.float -> Z }.

Definition int_of_float {impl : GLSLImpl} (f : F32.float) : Z :=
  match F32.trunc f with
  | Some z => if I32.in_range z then z else I32.wrap (undefined_int f)
  | None => I32.wrap (undefined_int f)
  end.

(** An implementation for running the model on concrete inputs. *)
Definition zero_impl : GLSLImpl := {| undefined_int := fun _ => 0 |}.

(** ** Texels and images *)

Module Vec4.
Record vec4 : Type := Build { x : F32.float; y : F32.float; z : F32.float; w : F32.float }.

(** [v *= s] for a scalar [s]: component by component. *)
Definition scale (v : vec4) (s : F32.float) : vec4 :=
  Build (F32.mul (x v) s) (F32.mul (y v) s) (F32.mul (z v) s) (F32.mul (w v) s).

Definition splat (s : F32.float) : vec4 := Build s s s s.
End Vec4.
Definition vec4 : Type := Vec4.vec4.

(** An [rgba32f] two-dimensional image: its size and its texels. *)
Record image2D : Type := {
  width : Z;
  height : Z;
  texels : Z -> Z -> vec4
}.

Definition ivec2 : Type := (Z * Z)%type.

Definition in_bounds (img : image2D) (p : ivec2) : bool :=
  (0 <=? fst p) && (fst p <? width img) && (0 <=? snd p) && (snd p <? height img).

(** [imageLoad]: the texel at [p]; a load outside the image returns zero
    (OpenGL 4.3, section 8.25: invalid image loads return zero).  The border
    colour of the texture's sampler state plays no part in image loads. *)
Definition imageLoad (img : image2D) (p : ivec2) : vec4 :=
  if in_bounds img p then texels img (fst p) (snd p)
  else Vec4.splat F32.zero.

(** [imageStore]: a store outside the image is discarded. *)
Definition imageStore (img : image2D) (p : ivec2) (v : vec4) : image2D :=
  if in_bounds img p then
    {| width := width img; height := height img;
       texels := fun x y =>
         if (x =? fst p) && (y =? snd p) then v else texels img x y |}
  else img.

(** The state of a cell: the first channel of its texel. *)
Definition cell (img : image2D) (x y : Z) : F32.float := Vec4.x (texels img x y).

(** ** The compute shader, [gameoflife.comp] *)

Module Shader.

(** The transition rule of line 30, on the old state [oldState_x] and the
    neighbour count: [max(1 - abs(n - 3), 0) + oldState.x * max(1 - abs(n - 2), 0)].
    The two [max] terms are [int]s; each is converted to [float] where it
    meets a [float] operand. *)
Definition transition (oldState_x : F32.float) (numNeighbours : Z) : F32.float :=
  F32.add
    (F32.of_int (I32.max (I32.sub 1 (I32.abs (I32.sub numNeighbours 3))) 0))
    (F32.mul oldState_x
       (F32.of_int (I32.max (I32.sub 1 (I32.abs (I32.sub numNeighbours 2))) 0))).

Section WithImpl.
Context {impl : GLSLImpl}.

(** One neighbour's contribution, [int(imageLoad(img_input, p)).x]: the
    first component of the texel, converted to [int]. *)
Definition neighbour (img_input : image2D) (p : ivec2) : Z :=
  int_of_float (Vec4.x (imageLoad img_input p)).

(** Lines 15 to 23: the eight additions into [numNeighbours], in the order
    of the source. *)
Definition countNeighbours (img_input : image2D) (pixel_coords : ivec2) : Z :=
  let px := fst pixel_coords in
  let py := snd pixel_coords in
  let numNeighbours := 0 in
  let numNeighbours := I32.add numNeighbours (neighbour img_input (I32.sub px 1, I32.sub py 1)) in
  let numNeighbours := I32.add numNeighbours (neighbour img_input (px, I32.sub py 1)) in
  let numNeighbours := I32.add numNeighbours (neighbour img_input (I32.add px 1, I32.sub py 1)) in
  let numNeighbours := I32.add numNeighbours (neighbour img_input (I32.sub px 1, py)) in
  let numNeighbours := I32.add numNeighbours (neighbour img_input (I32.add px 1, py)) in
  let numNeighbours := I32.add numNeighbours (neighbour img_input (I32.sub px 1, I32.add py 1)) in
  let numNeighbours := I32.add numNeighbours (neighbour img_input (px, I32.add py 1)) in
  let numNeighbours := I32.add numNeighbours (neighbour img_input (I32.add px 1, I32.add py 1)) in
  numNeighbours.

(** The texel the invocation at [pixel_coords] computes (lines 12 to 30). *)
Definition pixel (img_input : image2D) (pixel_coords : ivec2) : vec4 :=
  let oldState := imageLoad img_input pixel_coords in
  let numNeighbours := countNeighbours img_input pixel_coords in
  let pixel := Vec4.Build F32.one F32.one F32.one F32.one in
  Vec4.scale pixel (transition (Vec4.x oldState) numNeighbours).

(** [main]: one invocation.  [gl_GlobalInvocationID] is a [uvec3]; its [xy]
    is converted to an [ivec2].  The invocation reads [img_input] and
    returns [img_output] after its one store. *)
Definition main (img_input img_output : image2D) (gl_GlobalInvocationID : Z * Z * Z) : image2D :=
  let pixel_coords : ivec2 :=
    (I32.wrap (fst (fst gl_GlobalInvocationID)), I32.wrap (snd (fst gl_GlobalInvocationID))) in
  imageStore img_output pixel_coords (pixel img_input pixel_coords).

End WithImpl.

(** The branching rule, as the specification words it: alive with three
    neighbours, unchanged with two, dead otherwise. *)
Definition reference_rule (self : F32.float) (n : Z) : F32.float :=
  if n =? 3 then F32.one else if n =? 2 then self else F32.zero.

End Shader.

(** ** The host program, [GameOfLife.cpp] *)

Module Host.

(** *** Constants (lines 27 to 37, and the GLFW and OpenGL headers) *)

Definition INITAL_SETUP_PATH : string := "inital_setup.png"%string.

Definition gridWidth : Z := 400.
Definition gridHeight : Z := 400.

Definition GLFW_RELEASE : Z := 0.
Definition GLFW_PRESS : Z := 1.
Definition GLFW_REPEAT : Z := 2.

Definition GLFW_KEY_SPACE : Z := 32.
Definition GLFW_KEY_MINUS : Z := 45.
Definition GLFW_KEY_EQUAL : Z := 61.
Definition GLFW_KEY_A : Z := 65.
Definition GLFW_KEY_D : Z := 68.
Definition GLFW_KEY_S : Z := 83.
Definition GLFW_KEY_T : Z := 84.
Definition GLFW_KEY_W : Z := 87.

Definition GL_FRAGMENT_SHADER : Z := 35632.
Definition GL_VERTEX_SHADER : Z := 35633.
Definition GL_COMPUTE_SHADER : Z := 37305.

(** The literals [0.01f] and [0.1f]: the floats nearest to 1/100 and 1/10. *)
Definition f0_01 : F32.float := F32.div (F32.of_int 1) (F32.of_int 100).
Definition f0_1 : F32.float := F32.div (F32.of_int 1) (F32.of_int 10).

(** *** What the program writes, and the calls of [simulationTick] *)

Definition endl : string := String "010"%char EmptyString.

Inductive event : Type :=
| Cerr (text : string)                          (* std::cerr << text *)
| Cout (text : string)                          (* std::cout << text *)
| Fprintf_stderr (format : string) (args : list Z)  (* fprintf(stderr, format, args...) *)
| TickInvoked.                                  (* simulationTick() was entered *)

(** *** OpenGL objects *)

(** What [loadCompileShader] returns: [(GLuint)-1], which names no shader
    object, or the name of a compiled shader object. *)
Inductive GLshader : Type :=
| NoShader
| ShaderObject (shaderPath : string) (shaderType : Z).

Record GLprogram : Type := {
  attached : list GLshader;
  link_status : bool
}.

Definition is_shader_object (s : GLshader) : bool :=
  match s with NoShader => false | ShaderObject _ _ => true end.

Definition is_compute_shader (s : GLshader) : bool :=
  match s with NoShader => false | ShaderObject _ t => t =? GL_COMPUTE_SHADER end.

(** A program [glDispatchCompute] can run: linked, with a compute stage. *)
Definition has_compute_stage (p : GLprogram) : bool :=
  link_status p && existsb is_compute_shader (attached p).

(** *** The state of the running program: the globals of lines 39 to 50,
    the two textures they name, the program OpenGL has in use, and the
    output written so far *)

Record State : Type := {
  currentScale : F32.float;
  currentXOffset : F32.float;
  currentYOffset : F32.float;
  simulationIsRunning : bool;
  computeProgram : GLprogram;
  inputTexture : image2D;        (* bound to image unit 0, [img_input] *)
  outputTexture : image2D;       (* bound to image unit 1, [img_output] *)
  programInUse : option GLprogram;
  log : list event
}.

Definition set_currentScale (v : F32.float) (st : State) : State :=
  {| currentScale := v; currentXOffset := currentXOffset st;
     currentYOffset := currentYOffset st; simulationIsRunning := simulationIsRunning st;
     computeProgram := computeProgram st; inputTexture := inputTexture st;
     outputTexture := outputTexture st; programInUse := programInUse st; log := log st |}.

Definition set_currentXOffset (v : F32.float) (st : State) : State :=
  {| currentScale := currentScale st; currentXOffset := v;
     currentYOffset := currentYOffset st; simulationIsRunning := simulationIsRunning st;
     computeProgram := computeProgram st; inputTexture := inputTexture st;
     outputTexture := outputTexture st; programInUse := programInUse st; log := log st |}.

Definition set_currentYOffset (v : F32.float) (st : State) : State :=
  {| currentScale := currentScale st; currentXOffset := currentXOffset st;
     currentYOffset := v; simulationIsRunning := simulationIsRunning st;
     computeProgram := computeProgram st; inputTexture := inputTexture st;
     outputTexture := outputTexture st; programInUse := programInUse st; log := log st |}.

Definition set_simulationIsRunning (v : bool) (st : State) : State :=
  {| currentScale := currentScale st; currentXOffset := currentXOffset st;
     currentYOffset := currentYOffset st; simulationIsRunning := v;
     computeProgram := computeProgram st; inputTexture := inputTexture st;
     outputTexture := outputTexture st; programInUse := programInUse st; log := log st |}.

Definition set_inputTexture (v : image2D) (st : State) : State :=
  {| currentScale := currentScale st; currentXOffset := currentXOffset st;
     currentYOffset := currentYOffset st; simulationIsRunning := simulationIsRunning st;
     computeProgram := computeProgram st; inputTexture := v;
     outputTexture := outputTexture st; programInUse := programInUse st; log := log st |}.

Definition set_outputTexture (v : image2D) (st : State) : State :=
  {| currentScale := currentScale st; currentXOffset := currentXOffset st;
     currentYOffset := currentYOffset st; simulationIsRunning := simulationIsRunning st;
     computeProgram := computeProgram st; inputTexture := inputTexture st;
     outputTexture := v; programInUse := programInUse st; log := log st |}.

Definition set_programInUse (v : option GLprogram) (st : State) : State :=
  {| currentScale := currentScale st; currentXOffset := currentXOffset st;
     currentYOffset := currentYOffset st; simulationIsRunning := simulationIsRunning st;
     computeProgram := computeProgram st; inputTexture := inputTexture st;
     outputTexture := outputTexture st; programInUse := v; log := log st |}.

Definition emit (e : event) (st : State) : State :=
  {| currentScale := currentScale st; currentXOffset := currentXOffset st;
     currentYOffset := currentYOffset st; simulationIsRunning := simulationIsRunning st;
     computeProgram := computeProgram st; inputTexture := inputTexture st;
     outputTexture := outputTexture st; programInUse := programInUse st;
     log := log st ++ [e] |}.

(** Statements in sequence on the state. *)
Definition seq_cmd (c1 c2 : State -> State) : State -> State := fun st => c2 (c1 st).
Notation "c1 ;; c2" := (seq_cmd c1 c2) (at level 61, right associativity).

(** *** The OpenGL calls of [simulationTick] *)

Definition Zrange (n : Z) : list Z := map Z.of_nat (seq 0 (Z.to_nat n)).

(** The invocations of a dispatch of [nx * ny * nz] work groups of local
    size 1 x 1 x 1: one per global invocation ID.  OpenGL fixes no order
    among them; this is the order the model runs them in. *)
Definition invocations (nx ny nz : Z) : list (Z * Z * Z) :=
  flat_map (fun z => flat_map (fun y => map (fun x => (x, y, z)) (Zrange nx)) (Zrange ny))
    (Zrange nz).

Section WithImpl.
Context {impl : GLSLImpl}.

(** The invocations [ids] run one after the other: each reads image unit 0
    and stores into image unit 1. *)
Definition run_invocations (ids : list (Z * Z * Z)) (img_input img_output : image2D) : image2D :=
  fold_left (fun out id => Shader.main img_input out id) ids img_output.

(** [glUseProgram]: a program that did not link raises GL_INVALID_OPERATION
    and the program in use stays what it was. *)
Definition glUseProgram (p : GLprogram) (st : State) : State :=
  if link_status p then set_programInUse (Some p) st else st.

(** [glDispatchCompute]: without a program in use that has a compute stage
    the call raises GL_INVALID_OPERATION and does nothing. *)
Definition glDispatchCompute (num_groups_x num_groups_y num_groups_z : Z) (st : State) : State :=
  match programInUse st with
  | Some p =>
      if has_compute_stage p then
        set_outputTexture
          (run_invocations (invocations num_groups_x num_groups_y num_groups_z)
             (inputTexture st) (outputTexture st)) st
      else st
  | None => st
  end.

(** [glMemoryBarrier] orders memory accesses; it changes no value. *)
Definition glMemoryBarrier (barriers : Z) (st : State) : State := st.

(** [glCopyImageSubData] on level 0 of two 2D textures: the region of
    [srcWidth] by [srcHeight] texels at ([srcX], [srcY]) of [src] replaces
    the region at ([dstX], [dstY]) of [dst].  A region that leaves either
    image raises GL_INVALID_VALUE and copies nothing. *)
Definition copyImageSubData (src : image2D) (srcX srcY : Z) (dst : image2D) (dstX dstY : Z)
    (srcWidth srcHeight : Z) : image2D :=
  if (0 <=? srcX) && (0 <=? srcY) && (0 <=? dstX) && (0 <=? dstY)
     && (0 <=? srcWidth) && (0 <=? srcHeight)
     && (srcX + srcWidth <=? width src) && (srcY + srcHeight <=? height src)
     && (dstX + srcWidth <=? width dst) && (dstY + srcHeight <=? height dst)
  then
    {| width := width dst; height := height dst;
       texels := fun x y =>
         if (dstX <=? x) && (x <? dstX + srcWidth) && (dstY <=? y) && (y <? dstY + srcHeight)
         then texels src (x - dstX + srcX) (y - dstY + srcY)
         else texels dst x y |}
  else dst.

(** Line 155: [glCopyImageSubData(outputTexture, ..., inputTexture, ...)]. *)
Definition glCopyImageSubData_output_to_input (srcX srcY dstX dstY srcWidth srcHeight : Z)
    (st : State) : State :=
  set_inputTexture
    (copyImageSubData (outputTexture st) srcX srcY (inputTexture st) dstX dstY srcWidth srcHeight)
    st.

Definition GL_SHADER_IMAGE_ACCESS_BARRIER_BIT : Z := 32.
Definition GL_ALL_BARRIER_BITS : Z := 4294967295.

(** [simulationTick] (lines 143 to 159). *)
Definition simulationTick : State -> State :=
  emit TickInvoked ;;
  (fun st => glUseProgram (computeProgram st) st) ;;
  glDispatchCompute gridWidth gridHeight 1 ;;
  glMemoryBarrier GL_SHADER_IMAGE_ACCESS_BARRIER_BIT ;;
  glCopyImageSubData_output_to_input 0 0 0 0 gridWidth gridHeight ;;
  glMemoryBarrier GL_ALL_BARRIER_BITS.

(** [key_callback] (lines 161 to 204).  The comparison [currentScale <= 0.0]
    is made in [double]; the promotion keeps the value. *)
Definition key_callback (key scancode action mods : Z) (st : State) : State :=
  if negb (action =? GLFW_PRESS) && negb (action =? GLFW_REPEAT) then st
  else
    let st :=
      if key =? GLFW_KEY_W then
        set_currentYOffset (F32.add (currentYOffset st) f0_01) st
      else if key =? GLFW_KEY_S then
        set_currentYOffset (F32.sub (currentYOffset st) f0_01) st
      else if key =? GLFW_KEY_A then
        set_currentXOffset (F32.sub (currentXOffset st) f0_01) st
      else if key =? GLFW_KEY_D then
        set_currentXOffset (F32.add (currentXOffset st) f0_01) st
      else if key =? GLFW_KEY_SPACE then
        set_simulationIsRunning (negb (simulationIsRunning st)) st
      else if key =? GLFW_KEY_EQUAL then
        set_currentScale (F32.add (currentScale st) f0_1) st
      else if key =? GLFW_KEY_MINUS then
        set_currentScale (F32.sub (currentScale st) f0_1) st
      else if key =? GLFW_KEY_T then
        simulationTick st
      else st in
    if F32.leb (currentScale st) F32.zero then set_currentScale f0_1 st else st.

End WithImpl.

(** *** The world outside the program *)

(** What building one shader file comes to. *)
Inductive shader_build : Type :=
| FileUnreadable
| CompileFails (infoLog : string)
| Compiles.

(** A decoded image file, as [stb_image] decodes it without flipping: rows
    from the top, pixels from the left, channels interleaved. *)
Record Image : Type := {
  imgWidth : Z;
  imgHeight : Z;
  numChannels : Z;
  pixels : list byte
}.

Record KeyEvent : Type := {
  ev_key : Z;
  ev_scancode : Z;
  ev_action : Z;
  ev_mods : Z
}.

Record World : Type := {
  glfwInit_ok : bool;
  shader_on_disk : string -> shader_build;
  (** the linker's diagnostic for the attached shaders; [None]: the link succeeds *)
  link_infoLog : list GLshader -> option string;
  (** the file at [INITAL_SETUP_PATH]; [None]: [stbi_load] returns NULL *)
  image_on_disk : option Image;
  (** the content of a texture allocated with no data, which OpenGL leaves undefined *)
  fresh_texels : Z -> Z -> vec4;
  (** the key events each [glfwPollEvents] delivers, one list per frame until the window closes *)
  frames : list (list KeyEvent)
}.

(** *** Loading the initial state (lines 266 to 302) *)

(** [stbi_load] after [stbi_set_flip_vertically_on_load(true)]: the rows of
    the decoded image in reverse order, so that the first row of the data is
    the bottom row of the picture. *)
Definition stbi_flipped (img : Image) : list byte :=
  let row_bytes := imgWidth img * numChannels img in
  map (fun i =>
         let row := i / row_bytes in
         let col := i mod row_bytes in
         nth (Z.to_nat ((imgHeight img - 1 - row) * row_bytes + col)) (pixels img) x00)
      (Zrange (imgHeight img * row_bytes)).

(** An unsigned normalized byte as a float: [c / 255]. *)
Definition unorm8 (c : byte) : F32.float :=
  F32.div (F32.of_int (Z.of_N (Byte.to_N c))) (F32.of_int 255).

(** The distance in bytes between two rows of [GL_RGB], [GL_UNSIGNED_BYTE]
    pixel data: the row length rounded up to GL_UNPACK_ALIGNMENT, which is 4. *)
Definition unpack_row_stride (w : Z) : Z := 4 * ((3 * w + 3) / 4).

(** [glTexImage2D(GL_TEXTURE_2D, 0, GL_RGBA32F, w, h, 0, GL_RGB, GL_UNSIGNED_BYTE, data)]:
    row [y] of the texture is row [y] of the data; the alpha channel is 1. *)
Definition glTexImage2D_RGB_UNSIGNED_BYTE (w h : Z) (data : list byte) : image2D :=
  {| width := w; height := h;
     texels := fun x y =>
       let channel k := unorm8 (nth (Z.to_nat (y * unpack_row_stride w + 3 * x + k)) data x00) in
       Vec4.Build (channel 0) (channel 1) (channel 2) F32.one |}.

(** [glTexImage2D(..., GL_RGBA, GL_FLOAT, NULL)]: storage with undefined content. *)
Definition glTexImage2D_NULL (w h : Z) (content : Z -> Z -> vec4) : image2D :=
  {| width := w; height := h; texels := content |}.

(** *** Building the shaders (lines 70 to 141) *)

(** [loadCompileShader]: the messages written, and the value returned. *)
Definition loadCompileShader (world : World) (shaderPath : string) (shaderType : Z)
    : list event * GLshader :=
  match shader_on_disk world shaderPath with
  | FileUnreadable =>
      ([Cerr ("Couldn't load " ++ shaderPath ++ endl)%string], NoShader)
  | CompileFails infoLog =>
      ([Cerr ("Shader compilation error in " ++ shaderPath ++ " :" ++ endl ++ infoLog ++ endl)%string],
       NoShader)
  | Compiles => ([], ShaderObject shaderPath shaderType)
  end.

(** [createLinkProgram]: [glAttachShader] attaches the names that are shader
    objects; a failed link is written to [std::cout] and the program is
    returned all the same. *)
Definition createLinkProgram (world : World) (shaders : list GLshader)
    : list event * GLprogram :=
  let objects := filter is_shader_object shaders in
  match link_infoLog world objects with
  | Some infoLog =>
      ([Cout ("Shader link error:" ++ endl ++ infoLog ++ endl)%string],
       {| attached := objects; link_status := false |})
  | None => ([], {| attached := objects; link_status := true |})
  end.

(** *** [main] (lines 206 to 367) *)

(** How start-up ends: [main] returns [code], or the textures exist and the
    frame loop starts in state [st] with the render program [renderProgram]
    (a local of [main]). *)
Inductive startup : Type :=
| Exit (code : Z) (out : list event)
| Running (renderProgram : GLprogram) (st : State).

(** Lines 206 to 326: everything before the frame loop. *)
Definition main_init (world : World) : startup :=
  if negb (glfwInit_ok world) then
    Exit (-1) [Cerr ("Failed to initalize GLFW!" ++ endl)%string]
  else
    let '(out1, quadVertexShader) := loadCompileShader world "quad.vert"%string GL_VERTEX_SHADER in
    let '(out2, quadFragmentShader) := loadCompileShader world "quad.frag"%string GL_FRAGMENT_SHADER in
    let '(out3, computeShader) := loadCompileShader world "gameoflife.comp"%string GL_COMPUTE_SHADER in
    let '(out4, renderProgram) := createLinkProgram world [quadVertexShader; quadFragmentShader] in
    let '(out5, computeProgram) := createLinkProgram world [computeShader] in
    let out := out1 ++ out2 ++ out3 ++ out4 ++ out5 in
    match image_on_disk world with
    | None =>
        Exit 1 (out ++ [Cerr ("Could not read the inital setup!" ++ endl)%string])
    | Some img =>
        let data := stbi_flipped img in
        if negb (imgWidth img =? gridWidth) || negb (imgHeight img =? gridHeight)
           || negb (numChannels img =? 3)
        then
          Exit 1
            (out ++ [Cerr ("Inital setup image has the wrong dimensions!" ++ endl)%string;
                     Fprintf_stderr "Expected %d x %d x 3, got %d x %d x %d"%string
                       [gridWidth; gridHeight; imgWidth img; imgHeight img; numChannels img]])
        else
          Running renderProgram
            {| currentScale := F32.of_int 1;
               currentXOffset := F32.of_int 0;
               currentYOffset := F32.of_int 0;
               simulationIsRunning := true;
               computeProgram := computeProgram;
               inputTexture := glTexImage2D_RGB_UNSIGNED_BYTE gridWidth gridHeight data;
               outputTexture := glTexImage2D_NULL gridWidth gridHeight (fresh_texels world);
               programInUse := None;
               log := out |}
    end.

Section WithImpl.
Context {impl : GLSLImpl}.

(** [glfwPollEvents]: the key callback runs once per event. *)
Definition glfwPollEvents (events : list KeyEvent) (st : State) : State :=
  fold_left
    (fun st e => key_callback (ev_key e) (ev_scancode e) (ev_action e) (ev_mods e) st)
    events st.

(** One turn of the loop of lines 328 to 362.  Drawing reads
    [outputTexture] and the viewport; of its calls only
    [glUseProgram(renderProgram)] changes the state. *)
Definition frame (renderProgram : GLprogram) (events : list KeyEvent) : State -> State :=
  (fun st => if simulationIsRunning st then simulationTick st else st) ;;
  glUseProgram renderProgram ;;
  glfwPollEvents events.

Definition main_loop (renderProgram : GLprogram) (frames : list (list KeyEvent)) (st : State)
    : State :=
  fold_left (fun st events => frame renderProgram events st) frames st.

(** [main]: the exit code and everything written, with the calls of
    [simulationTick] in their place. *)
Definition main (world : World) : Z * list event :=
  match main_init world with
  | Exit code out => (code, out)
  | Running renderProgram st => (0, log (main_loop renderProgram (frames world) st))
  end.

End WithImpl.

End Host.

(** ** Notions the properties are stated with *)

(** A cell that is exactly dead (0.0) or exactly alive (1.0). *)
Definition is_binary (f : F32.float) : Prop := f = F32.zero \/ f = F32.one.

Definition binary_cells (img : image2D) : Prop :=
  forall x y, in_bounds img (x, y) = true -> is_binary (cell img x y).

(** A float of the 32-bit format that lies in the closed interval [0, 1]. *)
Definition in_unit_interval (f : F32.float) : Prop :=
  F32.valid f = true /\ F32.leb F32.zero f = true /\ F32.leb f F32.one = true.

Definition unit_cells (img : image2D) : Prop :=
  forall x y, in_bounds img (x, y) = true -> in_unit_interval (cell img x y).

(** An image whose sizes are [int]s, as the sizes of every texture are. *)
Definition fits_int (img : image2D) : Prop :=
  width img <= I32.max_int /\ height img <= I32.max_int.

(** The eight positions around [p], with no wrap-around. *)
Definition neighbourhood (p : ivec2) : list ivec2 :=
  let x := fst p in
  let y := snd p in
  [(x - 1, y - 1); (x, y - 1); (x + 1, y - 1);
   (x - 1, y);                 (x + 1, y);
   (x - 1, y + 1); (x, y + 1); (x + 1, y + 1)].

(** A live cell of the grid: a position inside the image whose state is 1.0. *)
Definition alive (img : image2D) (p : ivec2) : bool :=
  in_bounds img p && SFeqb (cell img (fst p) (snd p)) F32.one.

(** The number of live neighbours of [p]: positions off the grid count for
    nothing. *)
Definition live_neighbours (img : image2D) (p : ivec2) : Z :=
  Z.of_nat (List.length (filter (alive img) (neighbourhood p))).

Section WithImpl.
Context {impl : GLSLImpl}.

(** The next generation of a whole grid: the kernel at every cell. *)
Definition next_generation (img : image2D) : image2D :=
  {| width := width img; height := height img;
     texels := fun x y => Shader.pixel img (x, y) |}.

End WithImpl.

(** Two images with the same cells inside the grid. *)
Definition same_grid (a b : image2D) : Prop :=
  width a = width b /\ height a = height b /\
  forall x y, in_bounds a (x, y) = true -> texels a x y = texels b x y.

(** A state in which a tick can run: the compute program is linked with its
    compute stage, and both textures have the size of the grid. *)
Definition ready (st : Host.State) : Prop :=
  Host.has_compute_stage (Host.computeProgram st) = true /\
  width (Host.inputTexture st) = Host.gridWidth /\
  height (Host.inputTexture st) = Host.gridHeight /\
  width (Host.outputTexture st) = Host.gridWidth /\
  height (Host.outputTexture st) = Host.gridHeight.

(** A grid drawn from a pattern of live cells. *)
Definition draws (img : image2D) (pattern : Z -> Z -> bool) : Prop :=
  forall x y, in_bounds img (x, y) = true ->
    cell img x y = if pattern x y then F32.one else F32.zero.

(** The blinker about ([cx], [cy]): three cells in a row, three in a column. *)
Definition blinker_row (cx cy x y : Z) : bool :=
  (y =? cy) && (cx - 1 <=? x) && (x <=? cx + 1).

Definition blinker_column (cx cy x y : Z) : bool :=
  (x =? cx) && (cy - 1 <=? y) && (y <=? cy + 1).

(** The byte of channel [k] of the pixel in column [col] of row [row] of a
    decoded image, rows counted from the top. *)
Definition pixel_at (img : Host.Image) (col row k : Z) : byte :=
  nth (Z.to_nat ((row * Host.imgWidth img + col) * Host.numChannels img + k))
    (Host.pixels img) x00.

(** A float strictly greater than zero. *)
Definition strictly_positive (f : F32.float) : Prop := F32.ltb F32.zero f = true.

(** The clamp at the end of [key_callback], on a value of the scale. *)
Definition clamp_scale (v : F32.float) : F32.float :=
  if F32.leb v F32.zero then Host.f0_1 else v.

(** A key event that [key_callback] acts on: a press or a repeat. *)
Definition pressed (action : Z) : bool :=
  (action =? Host.GLFW_PRESS) || (action =? Host.GLFW_REPEAT).

(** An image drawn from a pattern, all four channels alike. *)
Definition image_of_pattern (w h : Z) (pattern : Z -> Z -> bool) : image2D :=
  {| width := w; height := h;
     texels := fun x y => Vec4.splat (if pattern x y then F32.one else F32.zero) |}.

Section WithImpl.
Context {impl : GLSLImpl}.

(** What the position [q] adds to a neighbour count: the integer part of its
    cell inside the grid, nothing outside. *)
Definition contribution (img : image2D) (q : ivec2) : Z :=
  if in_bounds img q then int_of_float (cell img (fst q) (snd q)) else 0.

End WithImpl.

(** Conway's rule on a pattern of live cells of the unbounded plane. *)
Definition count_live (pattern : Z -> Z -> bool) (p : ivec2) : Z :=
  Z.of_nat (List.length (filter (fun q => pattern (fst q) (snd q)) (neighbourhood p))).

Definition life_step (pattern : Z -> Z -> bool) (x y : Z) : bool :=
  let n := count_live pattern (x, y) in
  (n =? 3) || (pattern x y && (n =? 2)).

(** A pattern all of whose live cells are cells of the grid. *)
Definition inside (img : image2D) (pattern : Z -> Z -> bool) : Prop :=
  forall x y, pattern x y = true -> in_bounds img (x, y) = true.

(** The viewport of a state, with the running flag: what the key handler
    steers and the tick leaves alone. *)
Definition viewport (st : Host.State) : F32.float * F32.float * F32.float * bool :=
  (Host.currentScale st, Host.currentXOffset st, Host.currentYOffset st,
   Host.simulationIsRunning st).

(** The picture start-up refuses: none, or one whose width, height or
    channel count is not that of the grid. *)
Definition bad_picture (picture : option Host.Image) : Prop :=
  match picture with
  | None => True
  | Some img =>
      Host.imgWidth img <> Host.gridWidth \/ Host.imgHeight img <> Host.gridHeight
      \/ Host.numChannels img <> 3
  end.

(** What start-up writes about the picture it refuses. *)
Definition picture_report (picture : option Host.Image) : list Host.event :=
  match picture with
  | None => [Host.Cerr ("Could not read the inital setup!" ++ Host.endl)%string]
  | Some img =>
      [Host.Cerr ("Inital setup image has the wrong dimensions!" ++ Host.endl)%string;
       Host.Fprintf_stderr "Expected %d x %d x 3, got %d x %d x %d"%string
         [Host.gridWidth; Host.gridHeight;
          Host.imgWidth img; Host.imgHeight img; Host.numChannels img]]
  end.

(** ** Concrete inputs *)

(** The compute program of a build in which the shader compiles and links. *)
Definition linked_compute_program : Host.GLprogram :=
  {| Host.attached := [Host.ShaderObject "gameoflife.comp"%string Host.GL_COMPUTE_SHADER];
     Host.link_status := true |}.

(** The state at the start of the frame loop, with the given textures. *)
Definition state_of_textures (img_input img_output : image2D) : Host.State :=
  {| Host.currentScale := F32.of_int 1;
     Host.currentXOffset := F32.of_int 0;
     Host.currentYOffset := F32.of_int 0;
     Host.simulationIsRunning := true;
     Host.computeProgram := linked_compute_program;
     Host.inputTexture := img_input;
     Host.outputTexture := img_output;
     Host.programInUse := None;
     Host.log := [] |}.

Definition empty_grid : image2D :=
  image_of_pattern Host.gridWidth Host.gridHeight (fun _ _ => false).

(** A blinker in the middle of the grid. *)
Definition blinker_state : Host.State :=
  state_of_textures
    (image_of_pattern Host.gridWidth Host.gridHeight (blinker_row 200 200)) empty_grid.

(** A single live cell in the corner (0, 0) of the grid. *)
Definition corner_state : Host.State :=
  state_of_textures
    (image_of_pattern Host.gridWidth Host.gridHeight (fun x y => (x =? 0) && (y =? 0)))
    empty_grid.

(** A grid of 3 x 3 cells that all hold the state of the byte 128: 128/255. *)
Definition grey_grid : image2D :=
  {| width := 3; height := 3;
     texels := fun _ _ => Vec4.splat (S754_finite false 8421505 (-24)) |}.

(** Twelve presses of the zoom-out key. *)
Definition zoom_out_events : list Host.KeyEvent :=
  repeat {| Host.ev_key := Host.GLFW_KEY_MINUS; Host.ev_scancode := 0;
            Host.ev_action := Host.GLFW_PRESS; Host.ev_mods := 0 |} 12.

(** A picture of the size of the grid, every byte 128. *)
Definition grey_picture : Host.Image :=
  {| Host.imgWidth := Host.gridWidth; Host.imgHeight := Host.gridHeight;
     Host.numChannels := 3;
     Host.pixels := repeat x80 (Z.to_nat (Host.gridWidth * Host.gridHeight * 3)) |}.

(** A world in which everything builds, the picture is [picture] (if any),
    and the window stays open for [frames]. *)
Definition world_with (picture : option Host.Image) (frames : list (list Host.KeyEvent))
    : Host.World :=
  {| Host.glfwInit_ok := true;
     Host.shader_on_disk := fun _ => Host.Compiles;
     Host.link_infoLog := fun _ => None;
     Host.image_on_disk := picture;
     Host.fresh_texels := fun _ _ => Vec4.splat F32.zero;
     Host.frames := frames |}.

(** A picture one column too narrow. *)
Definition narrow_picture : Host.Image :=
  {| Host.imgWidth := Host.gridWidth - 1; Host.imgHeight := Host.gridHeight;
     Host.numChannels := 3; Host.pixels := [] |}.

(** A world in which the compute shader does not compile, and the linker
    refuses a program without shaders; the picture is good and the window
    stays open for one frame. *)
Definition broken_shader_world : Host.World :=
  {| Host.glfwInit_ok := true;
     Host.shader_on_disk := fun path =>
       if String.eqb path "gameoflife.comp" then Host.CompileFails "0:1: syntax error"
       else Host.Compiles;
     Host.link_infoLog := fun shaders =>
       match shaders with
       | [] => Some "no shaders attached"%string
       | _ :: _ => None
       end;
     Host.image_on_disk := Some grey_picture;
     Host.fresh_texels := fun _ _ => Vec4.splat F32.zero;
     Host.frames := [[]] |}.

(** A grid of 3 x 3 cells: the cell (0, 0) holds 1.0, every other cell the
    state of the byte 128. *)
Definition mixed_grid : image2D :=
  {| width := 3; height := 3;
     texels := fun x y =>
       Vec4.splat (if (x =? 0) && (y =? 0) then F32.one
                   else S754_finite false 8421505 (-24)) |}.

(** * Properties *)

(** ** Integers and floats *)

Lemma wrap_small (z : Z) : I32.min_int <= z <= I32.max_int -> I32.wrap z = z.
Proof.
  unfold I32.wrap, I32.min_int, I32.max_int. intros Hz.
  rewrite Z.mod_small by lia. lia.
Qed.

Lemma in_range_spec (z : Z) :
  I32.in_range z = true <-> I32.min_int <= z <= I32.max_int.
Proof.
  unfold I32.in_range. rewrite andb_true_iff, !Z.leb_le. tauto.
Qed.

Lemma digits2_pos_size (m : positive) : digits2_pos m = Pos.size m.
Proof. induction m as [m IH | m IH |]; simpl; now rewrite ?IH. Qed.

Lemma digits2_pos_bound (m : positive) : Zpos m < 2 ^ Zpos (digits2_pos m).
Proof.
  rewrite digits2_pos_size.
  pose proof (Pos.size_gt m) as H.
  rewrite <- Pos2Z.inj_pow. now apply Pos2Z.pos_lt_pos.
Qed.

Lemma digits2_pos_lower (m : positive) : 2 ^ (Zpos (digits2_pos m) - 1) <= Zpos m.
Proof.
  rewrite digits2_pos_size.
  pose proof (Pos.size_le m) as H.
  apply Pos2Z.pos_le_pos in H. rewrite Pos2Z.inj_pow in H.
  replace (Zpos (Pos.size m)) with (Z.succ (Zpos (Pos.size m) - 1)) in H by lia.
  rewrite Z.pow_succ_r in H by lia.
  change (Zpos m~0) with (2 * Zpos m) in H. lia.
Qed.

(** [F32.trunc] rounds toward zero: it is the quotient of [Z.quot], which
    truncates, once the value is written as a fraction. *)
Lemma trunc_toward_zero (s : bool) (m : positive) (e : Z) :
  F32.trunc (S754_finite s m e)
  = Some (Z.quot ((if s then - Zpos m else Zpos m) * 2 ^ Z.max e 0) (2 ^ Z.max (- e) 0)).
Proof.
  unfold F32.trunc. f_equal.
  destruct (Z.leb_spec 0 e) as [He | He].
  - rewrite (Z.max_l e 0), (Z.max_r (- e) 0) by lia.
    rewrite Z.pow_0_r, Z.quot_1_r. destruct s; lia.
  - rewrite (Z.max_r e 0), (Z.max_l (- e) 0) by lia.
    rewrite Z.pow_0_r, Z.mul_1_r.
    assert (Hp : 0 < 2 ^ (- e)) by (apply Z.pow_pos_nonneg; lia).
    destruct s.
    + rewrite Z.quot_opp_l by lia. rewrite Z.quot_div_nonneg by lia. reflexivity.
    + rewrite Z.quot_div_nonneg by lia. reflexivity.
Qed.

Lemma SFeqb_one (f : F32.float) : SFeqb f F32.one = true <-> f = F32.one.
Proof.
  split.
  - unfold SFeqb, SFcompare, F32.one.
    destruct f as [s | s | | s m e]; try discriminate.
    + destruct s; discriminate.
    + destruct s; try discriminate.
      destruct (Z.compare_spec e (-23)) as [He | He | He]; try discriminate.
      rewrite Pos.compare_cont_spec. unfold Pos.switch_Eq.
      destruct (Pos.compare_spec m 8388608) as [Hm | Hm | Hm]; try discriminate.
      intros _. now subst.
  - intros ->. reflexivity.
Qed.

(** ** The transition rule *)

Ltac split_count n :=
  match goal with
  | H : 0 <= n <= 8 |- _ =>
      assert (n = 0 \/ n = 1 \/ n = 2 \/ n = 3 \/ n = 4 \/ n = 5 \/ n = 6 \/ n = 7 \/ n = 8)
        as Hcases by lia;
      clear H;
      repeat (destruct Hcases as [Hcases | Hcases]); subst n
  end.

(** C2: for [self] 0 or 1 and a neighbour count from 0 to 8, the closed form
    of the shader is the branching rule: 1 for three neighbours, [self] for
    two, 0 for any other count. *)
Theorem closed_form_is_reference_rule (self : F32.float) (n : Z) :
  is_binary self -> 0 <= n <= 8 ->
  Shader.transition self n = Shader.reference_rule self n
  /\ (n = 3 -> Shader.transition self n = F32.one)
  /\ (n = 2 -> Shader.transition self n = self)
  /\ (n <> 3 -> n <> 2 -> Shader.transition self n = F32.zero).
Proof.
  intros [-> | ->] Hn; split_count n;
    (split; [vm_compute; reflexivity |]);
    (split; [intros Hk; try discriminate Hk; vm_compute; reflexivity |]);
    (split; [intros Hk; try discriminate Hk; vm_compute; reflexivity |]);
    intros H3 H2; try (exfalso; apply H3; reflexivity);
    try (exfalso; apply H2; reflexivity); vm_compute; reflexivity.
Qed.

Lemma closed_form_is_reference_rule_witness :
  Shader.transition F32.one 2 = Shader.reference_rule F32.one 2
  /\ (2 = 3 -> Shader.transition F32.one 2 = F32.one)
  /\ (2 = 2 -> Shader.transition F32.one 2 = F32.one)
  /\ (2 <> 3 -> 2 <> 2 -> Shader.transition F32.one 2 = F32.zero).
Proof.
  apply (closed_form_is_reference_rule F32.one 2).
  - right. reflexivity.
  - lia.
Defined.

(** ** The neighbour count *)

Section Kernel.
Context {impl : GLSLImpl}.

Lemma int_of_float_zero : int_of_float F32.zero = 0.
Proof. reflexivity. Qed.

Lemma int_of_float_one : int_of_float F32.one = 1.
Proof. reflexivity. Qed.

Lemma neighbour_outside (img : image2D) (p : ivec2) :
  in_bounds img p = false -> Shader.neighbour img p = 0.
Proof.
  intros Hout. unfold Shader.neighbour, imageLoad. rewrite Hout. reflexivity.
Qed.

Lemma neighbour_binary (img : image2D) (p : ivec2) :
  binary_cells img -> Shader.neighbour img p = if alive img p then 1 else 0.
Proof.
  intros Hbin. destruct p as [x y].
  unfold Shader.neighbour, imageLoad, alive.
  destruct (in_bounds img (x, y)) eqn:Hin; [| reflexivity].
  simpl fst; simpl snd. fold (cell img x y).
  destruct (Hbin x y Hin) as [-> | ->]; reflexivity.
Qed.

Lemma add_bit (a b : Z) : 0 <= a <= 7 -> 0 <= b <= 1 -> I32.add a b = a + b.
Proof.
  intros Ha Hb. unfold I32.add. apply wrap_small.
  unfold I32.min_int, I32.max_int. lia.
Qed.

(** When every load contributes 0 or 1, the eight wrapping additions are a
    plain sum, at most 8. *)
Lemma countNeighbours_bits (img : image2D) (p : ivec2) :
  (forall q, 0 <= Shader.neighbour img q <= 1) ->
  0 <= Shader.countNeighbours img p <= 8.
Proof.
  intros Hbit. unfold Shader.countNeighbours.
  repeat match goal with
         | |- context [Shader.neighbour img ?q] =>
             let v := fresh "v" in
             let Hv := fresh "Hv" in
             pose proof (Hbit q) as Hv;
             set (v := Shader.neighbour img q) in *; clearbody v
         end.
  cbv zeta.
  repeat match goal with
         | |- context [I32.add ?a ?b] => rewrite (add_bit a b) by lia
         end.
  lia.
Qed.

Lemma neighbour_positions (img : image2D) (x y : Z) :
  fits_int img -> in_bounds img (x, y) = true ->
  I32.sub x 1 = x - 1 /\ I32.add x 1 = x + 1 /\ I32.sub y 1 = y - 1 /\ I32.add y 1 = y + 1.
Proof.
  intros [Hw Hh] Hin. unfold in_bounds in Hin. simpl in Hin.
  rewrite !andb_true_iff in Hin. destruct Hin as [[[Hx0 Hx1] Hy0] Hy1].
  apply Z.leb_le in Hx0, Hy0. apply Z.ltb_lt in Hx1, Hy1.
  unfold I32.max_int in Hw, Hh.
  unfold I32.sub, I32.add.
  repeat split; apply wrap_small; unfold I32.min_int, I32.max_int; lia.
Qed.

(** On a grid of cells that are 0 or 1, the count of the shader is the
    number of live neighbours inside the grid. *)
Lemma countNeighbours_live (img : image2D) (x y : Z) :
  fits_int img -> binary_cells img -> in_bounds img (x, y) = true ->
  Shader.countNeighbours img (x, y) = live_neighbours img (x, y).
Proof.
  intros Hfit Hbin Hin.
  destruct (neighbour_positions img x y Hfit Hin) as (Hxm & Hxp & Hym & Hyp).
  unfold Shader.countNeighbours, live_neighbours, neighbourhood.
  simpl fst; simpl snd. cbv zeta.
  rewrite Hxm, Hxp, Hym, Hyp.
  rewrite !(neighbour_binary img _ Hbin).
  simpl filter.
  destruct (alive img (x - 1, y - 1)), (alive img (x, y - 1)), (alive img (x + 1, y - 1)),
    (alive img (x - 1, y)), (alive img (x + 1, y)),
    (alive img (x - 1, y + 1)), (alive img (x, y + 1)), (alive img (x + 1, y + 1));
    reflexivity.
Qed.

Lemma live_neighbours_range (img : image2D) (p : ivec2) :
  0 <= live_neighbours img p <= 8.
Proof.
  unfold live_neighbours. split; [lia |].
  pose proof (filter_length_le (alive img) (neighbourhood p)) as H.
  simpl List.length in H at 2. lia.
Qed.

End Kernel.

(** ** One invocation of the kernel *)

Section Invocation.
Context {impl : GLSLImpl}.

Lemma in_bounds_spec (img : image2D) (x y : Z) :
  in_bounds img (x, y) = true <-> 0 <= x < width img /\ 0 <= y < height img.
Proof.
  unfold in_bounds. simpl. rewrite !andb_true_iff, !Z.leb_le, !Z.ltb_lt. tauto.
Qed.

Lemma pixel_binary (img : image2D) (x y : Z) :
  fits_int img -> binary_cells img -> in_bounds img (x, y) = true ->
  Shader.pixel img (x, y)
  = Vec4.splat (Shader.reference_rule (cell img x y) (live_neighbours img (x, y))).
Proof.
  intros Hfit Hbin Hin. unfold Shader.pixel.
  rewrite (countNeighbours_live img x y Hfit Hbin Hin).
  unfold imageLoad. rewrite Hin. simpl fst; simpl snd. fold (cell img x y).
  pose proof (live_neighbours_range img (x, y)) as Hn.
  set (n := live_neighbours img (x, y)) in *. clearbody n.
  destruct (Hbin x y Hin) as [-> | ->]; split_count n; vm_compute; reflexivity.
Qed.

Lemma main_stores_pixel (img_input img_output : image2D) (x y z : Z) :
  0 <= x <= I32.max_int -> 0 <= y <= I32.max_int ->
  in_bounds img_output (x, y) = true ->
  texels (Shader.main img_input img_output (x, y, z)) x y = Shader.pixel img_input (x, y).
Proof.
  intros Hx Hy Hin. unfold Shader.main. simpl fst; simpl snd.
  rewrite (wrap_small x), (wrap_small y) by (unfold I32.min_int; lia).
  unfold imageStore. rewrite Hin. simpl. now rewrite !Z.eqb_refl.
Qed.

Lemma main_size (img_input img_output : image2D) (id : Z * Z * Z) :
  width (Shader.main img_input img_output id) = width img_output
  /\ height (Shader.main img_input img_output id) = height img_output.
Proof.
  unfold Shader.main, imageStore.
  destruct (in_bounds img_output _); split; reflexivity.
Qed.

End Invocation.

(** C1: on a grid whose cells are all 0 or 1, the cell an invocation writes
    follows the truth table: alive with three live neighbours, unchanged
    with two, dead with 0, 1, 4, 5, 6, 7 or 8; the count is always one of
    these nine. *)
Theorem kernel_truth_table {impl : GLSLImpl} (img_input img_output : image2D) (x y z : Z) :
  fits_int img_input -> binary_cells img_input ->
  in_bounds img_input (x, y) = true -> in_bounds img_output (x, y) = true ->
  let n := live_neighbours img_input (x, y) in
  let next := cell (Shader.main img_input img_output (x, y, z)) x y in
  0 <= n <= 8
  /\ (n = 3 -> next = F32.one)
  /\ (n = 2 -> next = cell img_input x y)
  /\ (n = 0 \/ n = 1 \/ n = 4 \/ n = 5 \/ n = 6 \/ n = 7 \/ n = 8 -> next = F32.zero).
Proof.
  intros Hfit Hbin Hin Hout n next.
  assert (Hnext : next = Shader.reference_rule (cell img_input x y) n).
  { subst next. unfold cell at 1.
    apply in_bounds_spec in Hin as Hxy. destruct Hfit as [Hw Hh].
    rewrite main_stores_pixel by (assumption || lia).
    rewrite pixel_binary by (assumption || (split; assumption)).
    reflexivity. }
  split; [apply live_neighbours_range |].
  rewrite Hnext. unfold Shader.reference_rule.
  split; [intros ->; reflexivity |].
  split; [intros ->; reflexivity |].
  intros Hn.
  destruct (Z.eqb_spec n 3); [lia |]. destruct (Z.eqb_spec n 2); [lia | reflexivity].
Qed.

Lemma image_of_pattern_binary (w h : Z) (pattern : Z -> Z -> bool) :
  binary_cells (image_of_pattern w h pattern).
Proof.
  intros x y _. unfold cell. simpl. destruct (pattern x y); [right | left]; reflexivity.
Qed.

Lemma image_of_pattern_draws (w h : Z) (pattern : Z -> Z -> bool) :
  draws (image_of_pattern w h pattern) pattern.
Proof.
  intros x y _. unfold cell. simpl. destruct (pattern x y); reflexivity.
Qed.

Lemma kernel_truth_table_witness :
  let img := image_of_pattern 5 5 (blinker_row 2 2) in
  let out := image_of_pattern 5 5 (fun _ _ => false) in
  let n := live_neighbours img (2, 1) in
  let next := cell (Shader.main (impl := zero_impl) img out (2, 1, 0)) 2 1 in
  0 <= n <= 8
  /\ (n = 3 -> next = F32.one)
  /\ (n = 2 -> next = cell img 2 1)
  /\ (n = 0 \/ n = 1 \/ n = 4 \/ n = 5 \/ n = 6 \/ n = 7 \/ n = 8 -> next = F32.zero).
Proof.
  intros img out.
  apply (kernel_truth_table (impl := zero_impl) img out 2 1 0).
  - split; vm_compute; discriminate.
  - apply image_of_pattern_binary.
  - reflexivity.
  - reflexivity.
Defined.

(** ** The dispatch *)

Section Dispatch.
Context {impl : GLSLImpl}.

Lemma run_invocations_size (ids : list (Z * Z * Z)) (img_input img_output : image2D) :
  width (Host.run_invocations ids img_input img_output) = width img_output
  /\ height (Host.run_invocations ids img_input img_output) = height img_output.
Proof.
  unfold Host.run_invocations. revert img_output.
  induction ids as [| id ids IH]; intros img_output; simpl; [split; reflexivity |].
  destruct (IH (Shader.main img_input img_output id)) as [Hw Hh].
  destruct (main_size img_input img_output id) as [Hw' Hh'].
  split; congruence.
Qed.

Lemma in_bounds_same_size (a b : image2D) (p : ivec2) :
  width a = width b -> height a = height b -> in_bounds a p = in_bounds b p.
Proof. intros Hw Hh. unfold in_bounds. now rewrite Hw, Hh. Qed.

(** A texel that already holds the kernel's value keeps it: every store of
    the dispatch to that place writes this same value. *)
Lemma run_invocations_keeps (ids : list (Z * Z * Z)) (img_input img_output : image2D) (x y : Z) :
  texels img_output x y = Shader.pixel img_input (x, y) ->
  texels (Host.run_invocations ids img_input img_output) x y = Shader.pixel img_input (x, y).
Proof.
  unfold Host.run_invocations. revert img_output.
  induction ids as [| id ids IH]; intros img_output Hheld; simpl; [assumption |].
  apply IH. unfold Shader.main, imageStore.
  destruct (in_bounds img_output _); [| assumption].
  simpl.
  destruct (Z.eqb_spec x (I32.wrap (fst (fst id)))) as [Hx | Hx];
    destruct (Z.eqb_spec y (I32.wrap (snd (fst id)))) as [Hy | Hy]; simpl;
    try assumption.
  now subst.
Qed.

(** After the invocations [ids], in any order and any number of times, a
    cell that one of them is responsible for holds the kernel's value. *)
Lemma run_invocations_texel (ids : list (Z * Z * Z)) (img_input img_output : image2D) (x y z : Z) :
  fits_int img_output -> In (x, y, z) ids -> in_bounds img_output (x, y) = true ->
  texels (Host.run_invocations ids img_input img_output) x y = Shader.pixel img_input (x, y).
Proof.
  intros Hfit. revert img_output Hfit.
  induction ids as [| id ids IH]; intros img_output Hfit Hmem Hin; [contradiction |].
  apply in_bounds_spec in Hin as Hxy. pose proof Hfit as [Hw Hh].
  destruct Hmem as [-> | Hmem].
  - change (Host.run_invocations ((x, y, z) :: ids) img_input img_output)
      with (Host.run_invocations ids img_input (Shader.main img_input img_output (x, y, z))).
    apply run_invocations_keeps. apply main_stores_pixel; (assumption || lia).
  - change (Host.run_invocations (id :: ids) img_input img_output)
      with (Host.run_invocations ids img_input (Shader.main img_input img_output id)).
    destruct (main_size img_input img_output id) as [Hw' Hh'].
    apply IH; [| assumption |].
    + unfold fits_int. rewrite Hw', Hh'. assumption.
    + rewrite (in_bounds_same_size _ img_output) by assumption. assumption.
Qed.

Lemma In_Zrange (n k : Z) : In k (Host.Zrange n) <-> 0 <= k < n.
Proof.
  unfold Host.Zrange. rewrite in_map_iff. split.
  - intros (i & <- & Hi). apply in_seq in Hi. lia.
  - intros Hk. exists (Z.to_nat k). split; [lia |]. apply in_seq. lia.
Qed.

Lemma In_invocations (nx ny nz x y z : Z) :
  In (x, y, z) (Host.invocations nx ny nz) <-> 0 <= x < nx /\ 0 <= y < ny /\ 0 <= z < nz.
Proof.
  unfold Host.invocations. rewrite in_flat_map. split.
  - intros (z' & Hz & Hin). apply in_flat_map in Hin as (y' & Hy & Hin).
    apply in_map_iff in Hin as (x' & Heq & Hx). inversion Heq; subst.
    apply In_Zrange in Hx, Hy, Hz. tauto.
  - intros (Hx & Hy & Hz). exists z. split; [now apply In_Zrange |].
    apply in_flat_map. exists y. split; [now apply In_Zrange |].
    apply in_map_iff. exists x. split; [reflexivity | now apply In_Zrange].
Qed.

End Dispatch.

(** ** The tick *)

Section Tick.
Context {impl : GLSLImpl}.

Lemma imageLoad_same_grid (a b : image2D) (p : ivec2) :
  same_grid a b -> imageLoad a p = imageLoad b p.
Proof.
  intros (Hw & Hh & Htex). unfold imageLoad.
  rewrite <- (in_bounds_same_size a b p Hw Hh).
  destruct (in_bounds a p) eqn:Hin; [| reflexivity].
  destruct p as [x y]. now apply Htex.
Qed.

(** The kernel reads nothing but the cells of the grid. *)
Lemma pixel_same_grid (a b : image2D) (p : ivec2) :
  same_grid a b -> Shader.pixel a p = Shader.pixel b p.
Proof.
  intros Hab.
  unfold Shader.pixel, Shader.countNeighbours, Shader.neighbour.
  now rewrite !(imageLoad_same_grid a b _ Hab).
Qed.

Lemma same_grid_refl (a : image2D) : same_grid a a.
Proof. repeat split. Qed.

Lemma same_grid_trans (a b c : image2D) : same_grid a b -> same_grid b c -> same_grid a c.
Proof.
  intros (Hw & Hh & Hab) (Hw' & Hh' & Hbc). repeat split; try congruence.
  intros x y Hin. rewrite Hab by assumption. apply Hbc.
  now rewrite <- (in_bounds_same_size a b _ Hw Hh).
Qed.

Lemma next_generation_same_grid (a b : image2D) :
  same_grid a b -> same_grid (next_generation a) (next_generation b).
Proof.
  intros Hab. pose proof Hab as (Hw & Hh & _).
  repeat split; simpl; try assumption.
  intros x y _. now apply pixel_same_grid.
Qed.

(** A dispatch that covers the output image leaves the next generation in
    it, whatever the order of the invocations. *)
Lemma run_invocations_next_generation (ids : list (Z * Z * Z)) (img_input img_output : image2D) :
  fits_int img_output ->
  width img_output = width img_input -> height img_output = height img_input ->
  (forall x y, in_bounds img_output (x, y) = true -> exists z, In (x, y, z) ids) ->
  same_grid (Host.run_invocations ids img_input img_output) (next_generation img_input).
Proof.
  intros Hfit Hw Hh Hcover.
  destruct (run_invocations_size ids img_input img_output) as [Hw' Hh'].
  repeat split; simpl; try congruence.
  intros x y Hin.
  rewrite (in_bounds_same_size _ img_output) in Hin by assumption.
  destruct (Hcover x y Hin) as [z Hz].
  now apply (run_invocations_texel ids img_input img_output x y z).
Qed.

Lemma grid_size_fits (img : image2D) :
  width img = Host.gridWidth -> height img = Host.gridHeight -> fits_int img.
Proof. intros Hw Hh. unfold fits_int. rewrite Hw, Hh. split; vm_compute; discriminate. Qed.

Lemma copyImageSubData_whole (src dst : image2D) :
  0 <= width src -> 0 <= height src ->
  width dst = width src -> height dst = height src ->
  same_grid (Host.copyImageSubData src 0 0 dst 0 0 (width src) (height src)) src.
Proof.
  intros Hw0 Hh0 Hw Hh. unfold Host.copyImageSubData.
  replace ((0 <=? 0) && (0 <=? 0) && (0 <=? 0) && (0 <=? 0)
           && (0 <=? width src) && (0 <=? height src)
           && (0 + width src <=? width src) && (0 + height src <=? height src)
           && (0 + width src <=? width dst) && (0 + height src <=? height dst))
    with true.
  - repeat split; simpl; try assumption.
    intros x y Hin. apply in_bounds_spec in Hin. simpl in Hin.
    rewrite Hw, Hh in Hin.
    rewrite (proj2 (Z.leb_le 0 x)), (proj2 (Z.leb_le 0 y)) by lia.
    rewrite (proj2 (Z.ltb_lt x (width src))), (proj2 (Z.ltb_lt y (height src))) by lia.
    simpl. now rewrite !Z.sub_0_r, !Z.add_0_r.
  - symmetry. rewrite Hw, Hh. rewrite !andb_true_iff, !Z.leb_le. lia.
Qed.

Lemma glUseProgram_linked (p : Host.GLprogram) (st : Host.State) :
  Host.link_status p = true -> Host.glUseProgram p st = Host.set_programInUse (Some p) st.
Proof. intros H. unfold Host.glUseProgram. now rewrite H. Qed.

Lemma glDispatchCompute_runs (nx ny nz : Z) (p : Host.GLprogram) (st : Host.State) :
  Host.programInUse st = Some p -> Host.has_compute_stage p = true ->
  Host.glDispatchCompute nx ny nz st
  = Host.set_outputTexture
      (Host.run_invocations (Host.invocations nx ny nz)
         (Host.inputTexture st) (Host.outputTexture st)) st.
Proof. intros Hp Hc. unfold Host.glDispatchCompute. now rewrite Hp, Hc. Qed.

(** What [simulationTick] leaves in a state that is ready for it. *)
Lemma simulationTick_ready (st : Host.State) :
  ready st ->
  let generated :=
    Host.run_invocations (Host.invocations Host.gridWidth Host.gridHeight 1)
      (Host.inputTexture st) (Host.outputTexture st) in
  Host.outputTexture (Host.simulationTick st) = generated
  /\ Host.inputTexture (Host.simulationTick st)
     = Host.copyImageSubData generated 0 0 (Host.inputTexture st) 0 0
         Host.gridWidth Host.gridHeight
  /\ Host.computeProgram (Host.simulationTick st) = Host.computeProgram st
  /\ Host.log (Host.simulationTick st) = Host.log st ++ [Host.TickInvoked].
Proof.
  intros (Hprog & _). intros generated. subst generated.
  assert (Hlink : Host.link_status (Host.computeProgram st) = true).
  { unfold Host.has_compute_stage in Hprog. now apply andb_true_iff in Hprog. }
  unfold Host.simulationTick, Host.seq_cmd, Host.glMemoryBarrier,
    Host.glCopyImageSubData_output_to_input.
  rewrite (glUseProgram_linked _ _ Hlink).
  rewrite (glDispatchCompute_runs _ _ _ (Host.computeProgram st))
    by (reflexivity || assumption).
  destruct st; repeat split.
Qed.

End Tick.

Section Generation.
Context {impl : GLSLImpl}.

Lemma dispatch_covers_grid (img : image2D) (x y : Z) :
  width img = Host.gridWidth -> height img = Host.gridHeight ->
  in_bounds img (x, y) = true ->
  exists z, In (x, y, z) (Host.invocations Host.gridWidth Host.gridHeight 1).
Proof.
  intros Hw Hh Hin. apply in_bounds_spec in Hin. rewrite Hw, Hh in Hin.
  exists 0. apply In_invocations. lia.
Qed.

(** After a tick both textures hold the next generation of the grid, and the
    state is ready for the tick after. *)
Lemma tick_generation (st : Host.State) :
  ready st ->
  ready (Host.simulationTick st)
  /\ same_grid (Host.inputTexture (Host.simulationTick st))
       (next_generation (Host.inputTexture st))
  /\ same_grid (Host.outputTexture (Host.simulationTick st))
       (next_generation (Host.inputTexture st)).
Proof.
  intros Hready. pose proof Hready as (Hprog & Hiw & Hih & How & Hoh).
  destruct (simulationTick_ready st Hready) as (Hout & Hinp & Hcp & _).
  cbv zeta in Hout, Hinp.
  assert (Hgen : same_grid
                   (Host.run_invocations (Host.invocations Host.gridWidth Host.gridHeight 1)
                      (Host.inputTexture st) (Host.outputTexture st))
                   (next_generation (Host.inputTexture st))).
  { apply run_invocations_next_generation.
    - now apply grid_size_fits.
    - congruence.
    - congruence.
    - intros x y. now apply dispatch_covers_grid. }
  set (generated := Host.run_invocations _ _ _) in *. clearbody generated.
  pose proof Hgen as (Hgw & Hgh & _). cbn [width height next_generation] in Hgw, Hgh.
  assert (Hcopy : same_grid (Host.inputTexture (Host.simulationTick st)) generated).
  { rewrite Hinp.
    replace Host.gridWidth with (width generated) by congruence.
    replace Host.gridHeight with (height generated) by congruence.
    apply copyImageSubData_whole.
    - rewrite Hgw, Hiw. unfold Host.gridWidth. lia.
    - rewrite Hgh, Hih. unfold Host.gridHeight. lia.
    - congruence.
    - congruence. }
  pose proof Hcopy as (Hcw & Hch & _).
  split; [| split].
  - unfold ready. rewrite Hcp, Hout. repeat split; congruence.
  - now apply (same_grid_trans _ generated).
  - now rewrite Hout.
Qed.

Lemma ticks_generation (n : nat) (st : Host.State) :
  ready st ->
  ready (Nat.iter n Host.simulationTick st)
  /\ same_grid (Host.inputTexture (Nat.iter n Host.simulationTick st))
       (Nat.iter n next_generation (Host.inputTexture st)).
Proof.
  intros Hready. induction n as [| n [IHr IHg]]; cbn [Nat.iter nat_rect].
  - split; [assumption | apply same_grid_refl].
  - destruct (tick_generation _ IHr) as (Hr & Hg & _). split; [assumption |].
    eapply same_grid_trans; [exact Hg |]. now apply next_generation_same_grid.
Qed.

End Generation.

(** C3: one call of [simulationTick] advances the state by one generation.
    After the dispatch over the whole grid and the copy, every cell of the
    current buffer ([inputTexture]) is the kernel's value on the previous
    current buffer; so is the buffer that is displayed; the order of the
    invocations does not matter; and the tick after reads this result. *)
Theorem tick_advances_one_generation {impl : GLSLImpl} (st : Host.State) :
  ready st ->
  let st' := Host.simulationTick st in
  (forall x y, in_bounds (Host.inputTexture st) (x, y) = true ->
     texels (Host.inputTexture st') x y = Shader.pixel (Host.inputTexture st) (x, y))
  /\ width (Host.inputTexture st') = width (Host.inputTexture st)
  /\ height (Host.inputTexture st') = height (Host.inputTexture st)
  /\ same_grid (Host.outputTexture st') (Host.inputTexture st')
  /\ (forall ids, Permutation ids (Host.invocations Host.gridWidth Host.gridHeight 1) ->
        same_grid (Host.run_invocations ids (Host.inputTexture st) (Host.outputTexture st))
          (next_generation (Host.inputTexture st)))
  /\ ready st'
  /\ same_grid (Host.inputTexture (Host.simulationTick st'))
       (next_generation (next_generation (Host.inputTexture st))).
Proof.
  intros Hready st'. pose proof Hready as (Hprog & Hiw & Hih & How & Hoh).
  destruct (tick_generation st Hready) as (Hr' & Hin' & Hout').
  fold st' in Hr', Hin', Hout'.
  pose proof Hin' as (Hw & Hh & Htex). cbn [width height next_generation] in Hw, Hh.
  split; [| split; [| split; [| split; [| split; [| split]]]]].
  - intros x y Hxy. rewrite Htex; [reflexivity |].
    now rewrite (in_bounds_same_size _ (Host.inputTexture st)).
  - assumption.
  - assumption.
  - apply (same_grid_trans _ (next_generation (Host.inputTexture st))); [assumption |].
    repeat split; cbn [width height next_generation texels]; try congruence.
    intros x y Hxy. symmetry. apply Htex.
    now rewrite (in_bounds_same_size _ (Host.inputTexture st)).
  - intros ids Hperm. apply run_invocations_next_generation.
    + now apply grid_size_fits.
    + congruence.
    + congruence.
    + intros x y Hxy.
      destruct (dispatch_covers_grid _ x y How Hoh Hxy) as [z Hz].
      exists z. apply Permutation_sym in Hperm.
      now apply (Permutation_in _ Hperm).
  - assumption.
  - destruct (tick_generation st' Hr') as (_ & Hin'' & _).
    eapply same_grid_trans; [exact Hin'' |]. now apply next_generation_same_grid.
Qed.

Lemma state_of_textures_ready (img_input img_output : image2D) :
  width img_input = Host.gridWidth -> height img_input = Host.gridHeight ->
  width img_output = Host.gridWidth -> height img_output = Host.gridHeight ->
  ready (state_of_textures img_input img_output).
Proof. intros. unfold ready. simpl. repeat split; assumption. Qed.

Lemma tick_advances_one_generation_witness :
  let st := blinker_state in
  let st' := Host.simulationTick (impl := zero_impl) st in
  (forall x y, in_bounds (Host.inputTexture st) (x, y) = true ->
     texels (Host.inputTexture st') x y
     = Shader.pixel (impl := zero_impl) (Host.inputTexture st) (x, y))
  /\ ready st'.
Proof.
  intros st st'.
  assert (Hready : ready st) by (unfold ready; simpl; repeat split; reflexivity).
  destruct (tick_advances_one_generation (impl := zero_impl) st Hready)
    as (Htex & _ & _ & _ & _ & Hr & _).
  split; assumption.
Defined.

(** ** The boundary *)

Section Boundary.
Context {impl : GLSLImpl}.

Lemma neighbour_contribution (img : image2D) (q : ivec2) :
  Shader.neighbour img q = contribution img q.
Proof.
  unfold Shader.neighbour, contribution, imageLoad, cell.
  destruct (in_bounds img q); reflexivity.
Qed.

(** Inside the grid the count is taken over the eight plain neighbour
    positions: no coordinate wraps. *)
Lemma countNeighbours_contributions (img : image2D) (x y : Z) :
  fits_int img -> in_bounds img (x, y) = true ->
  Shader.countNeighbours img (x, y)
  = fold_left I32.add (map (contribution img) (neighbourhood (x, y))) 0.
Proof.
  intros Hfit Hin.
  destruct (neighbour_positions img x y Hfit Hin) as (Hxm & Hxp & Hym & Hyp).
  unfold Shader.countNeighbours, neighbourhood. simpl fst; simpl snd. cbv zeta.
  rewrite Hxm, Hxp, Hym, Hyp. rewrite !neighbour_contribution.
  cbn [map fold_left]. reflexivity.
Qed.

(** A live cell with no live cell around it dies. *)
Lemma isolated_cell_dies (img : image2D) (x y : Z) :
  fits_int img -> in_bounds img (x, y) = true ->
  cell img x y = F32.one ->
  (forall q, In q (neighbourhood (x, y)) -> in_bounds img q = true ->
     cell img (fst q) (snd q) = F32.zero) ->
  Shader.pixel img (x, y) = Vec4.splat F32.zero.
Proof.
  intros Hfit Hin Hself Hdead. unfold Shader.pixel.
  rewrite (countNeighbours_contributions img x y Hfit Hin).
  assert (Hzero : forall q, In q (neighbourhood (x, y)) -> contribution img q = 0).
  { intros q Hq. unfold contribution.
    destruct (in_bounds img q) eqn:Hqin; [| reflexivity].
    now rewrite (Hdead q Hq Hqin). }
  unfold neighbourhood in *. simpl fst in *; simpl snd in *.
  cbn [map fold_left].
  rewrite !Hzero by (simpl; tauto).
  unfold imageLoad. rewrite Hin. simpl fst; simpl snd.
  fold (cell img x y). rewrite Hself. vm_compute. reflexivity.
Qed.

End Boundary.

(** C4: a neighbour position outside the grid contributes the dead value 0
    to the count, with no wrap-around and no error; and a live corner cell
    with no live neighbour is dead after one tick. *)
Theorem boundary_neighbours_are_dead {impl : GLSLImpl} :
  (forall img q, in_bounds img q = false ->
     imageLoad img q = Vec4.splat F32.zero /\ Shader.neighbour img q = 0)
  /\ (forall img x y, fits_int img -> in_bounds img (x, y) = true ->
        Shader.countNeighbours img (x, y)
        = fold_left I32.add (map (contribution img) (neighbourhood (x, y))) 0)
  /\ (forall st x y, ready st ->
        (x = 0 \/ x = Host.gridWidth - 1) -> (y = 0 \/ y = Host.gridHeight - 1) ->
        cell (Host.inputTexture st) x y = F32.one ->
        (forall q, In q (neighbourhood (x, y)) -> in_bounds (Host.inputTexture st) q = true ->
           cell (Host.inputTexture st) (fst q) (snd q) = F32.zero) ->
        cell (Host.inputTexture (Host.simulationTick st)) x y = F32.zero).
Proof.
  split; [| split].
  - intros img q Hout. split; [| now apply neighbour_outside].
    unfold imageLoad. now rewrite Hout.
  - intros img x y. apply countNeighbours_contributions.
  - intros st x y Hready Hx Hy Hself Hdead.
    pose proof Hready as (_ & Hiw & Hih & _).
    destruct (tick_generation st Hready) as (_ & (Hw & Hh & Htex) & _).
    cbn [width height next_generation] in Hw, Hh.
    assert (Hin : in_bounds (Host.inputTexture st) (x, y) = true).
    { apply in_bounds_spec. rewrite Hiw, Hih.
      unfold Host.gridWidth, Host.gridHeight in *. lia. }
    unfold cell at 1.
    rewrite Htex by (rewrite (in_bounds_same_size _ (Host.inputTexture st)); assumption).
    cbn [texels next_generation].
    rewrite isolated_cell_dies; try assumption; [reflexivity |].
    now apply grid_size_fits.
Qed.

Lemma boundary_neighbours_are_dead_witness :
  cell (Host.inputTexture corner_state) 0 0 = F32.one
  /\ cell (Host.inputTexture (Host.simulationTick (impl := zero_impl) corner_state)) 0 0
     = F32.zero.
Proof.
  split; [reflexivity |].
  apply (proj2 (proj2 (boundary_neighbours_are_dead (impl := zero_impl))) corner_state 0 0).
  - unfold ready. simpl. repeat split; reflexivity.
  - left. reflexivity.
  - left. reflexivity.
  - reflexivity.
  - intros q Hq Hin. simpl in Hq.
    repeat (destruct Hq as [<- | Hq]; [try discriminate Hin; reflexivity |]).
    contradiction.
Defined.

(** ** Patterns: the tick is Conway's rule *)

Section Patterns.
Context {impl : GLSLImpl}.

Lemma draws_binary (img : image2D) (pattern : Z -> Z -> bool) :
  draws img pattern -> binary_cells img.
Proof.
  intros Hdraw x y Hin. rewrite (Hdraw x y Hin).
  destruct (pattern x y); [right | left]; reflexivity.
Qed.

Lemma alive_draws (img : image2D) (pattern : Z -> Z -> bool) (q : ivec2) :
  draws img pattern -> inside img pattern -> alive img q = pattern (fst q) (snd q).
Proof.
  intros Hdraw Hins. destruct q as [x y]. unfold alive. simpl fst; simpl snd.
  destruct (in_bounds img (x, y)) eqn:Hin.
  - rewrite (Hdraw x y Hin). destruct (pattern x y); reflexivity.
  - destruct (pattern x y) eqn:Hp; [| reflexivity].
    rewrite (Hins x y Hp) in Hin. discriminate.
Qed.

Lemma live_neighbours_draws (img : image2D) (pattern : Z -> Z -> bool) (p : ivec2) :
  draws img pattern -> inside img pattern ->
  live_neighbours img p = count_live pattern p.
Proof.
  intros Hdraw Hins. unfold live_neighbours, count_live. do 2 f_equal.
  apply filter_ext. intros q. now apply alive_draws.
Qed.

(** On a grid that holds a pattern with all its live cells, the kernel
    computes Conway's rule. *)
Lemma next_generation_draws (img : image2D) (pattern : Z -> Z -> bool) :
  fits_int img -> draws img pattern -> inside img pattern ->
  draws (next_generation img) (life_step pattern).
Proof.
  intros Hfit Hdraw Hins x y Hin.
  change (in_bounds (next_generation img) (x, y)) with (in_bounds img (x, y)) in Hin.
  unfold cell at 1. cbn [texels next_generation].
  rewrite (pixel_binary img x y Hfit (draws_binary img pattern Hdraw) Hin).
  cbn [Vec4.x Vec4.splat].
  rewrite (live_neighbours_draws img pattern (x, y) Hdraw Hins).
  rewrite (Hdraw x y Hin).
  unfold Shader.reference_rule, life_step.
  destruct (count_live pattern (x, y) =? 3); [reflexivity |].
  destruct (count_live pattern (x, y) =? 2); destruct (pattern x y); reflexivity.
Qed.

Lemma draws_same_grid (a b : image2D) (pattern : Z -> Z -> bool) :
  same_grid a b -> draws b pattern -> draws a pattern.
Proof.
  intros (Hw & Hh & Htex) Hdraw x y Hin. unfold cell. rewrite (Htex x y Hin).
  apply Hdraw. now rewrite <- (in_bounds_same_size a b).
Qed.

Lemma draws_ext (img : image2D) (p1 p2 : Z -> Z -> bool) :
  (forall x y, p1 x y = p2 x y) -> draws img p1 -> draws img p2.
Proof. intros Heq Hdraw x y Hin. rewrite <- Heq. now apply Hdraw. Qed.

End Patterns.

Lemma blinker_row_spec (cx cy x y : Z) :
  (y = cy /\ cx - 1 <= x <= cx + 1 -> blinker_row cx cy x y = true)
  /\ (y <> cy \/ x < cx - 1 \/ cx + 1 < x -> blinker_row cx cy x y = false).
Proof.
  unfold blinker_row.
  destruct (Z.eqb_spec y cy), (Z.leb_spec (cx - 1) x), (Z.leb_spec x (cx + 1));
    simpl; split; intros; (reflexivity || lia).
Qed.

Lemma blinker_column_spec (cx cy x y : Z) :
  (x = cx /\ cy - 1 <= y <= cy + 1 -> blinker_column cx cy x y = true)
  /\ (x <> cx \/ y < cy - 1 \/ cy + 1 < y -> blinker_column cx cy x y = false).
Proof.
  unfold blinker_column.
  destruct (Z.eqb_spec x cx), (Z.leb_spec (cy - 1) y), (Z.leb_spec y (cy + 1));
    simpl; split; intros; (reflexivity || lia).
Qed.

Ltac decide_blinker :=
  repeat match goal with
         | |- context [blinker_row ?cx ?cy ?a ?b] =>
             first [ rewrite (proj1 (blinker_row_spec cx cy a b)) by lia
                   | rewrite (proj2 (blinker_row_spec cx cy a b)) by lia ]
         | |- context [blinker_column ?cx ?cy ?a ?b] =>
             first [ rewrite (proj1 (blinker_column_spec cx cy a b)) by lia
                   | rewrite (proj2 (blinker_column_spec cx cy a b)) by lia ]
         end.

Ltac split_offset x cx :=
  let H := fresh "Hoff" in
  assert (x < cx - 2 \/ x = cx - 2 \/ x = cx - 1 \/ x = cx \/ x = cx + 1 \/ x = cx + 2
          \/ cx + 2 < x) as H by lia;
  repeat (destruct H as [H | H]).

(** Conway's rule turns the row of three into the column of three. *)
Lemma life_step_blinker_row (cx cy x y : Z) :
  life_step (blinker_row cx cy) x y = blinker_column cx cy x y.
Proof.
  unfold life_step, count_live, neighbourhood. cbn [fst snd filter].
  split_offset x cx; split_offset y cy; decide_blinker; reflexivity.
Qed.

(** And the column of three back into the row of three. *)
Lemma life_step_blinker_column (cx cy x y : Z) :
  life_step (blinker_column cx cy) x y = blinker_row cx cy x y.
Proof.
  unfold life_step, count_live, neighbourhood. cbn [fst snd filter].
  split_offset x cx; split_offset y cy; decide_blinker; reflexivity.
Qed.

Lemma blinker_row_inside (img : image2D) (cx cy : Z) :
  1 <= cx <= width img - 2 -> 0 <= cy <= height img - 1 ->
  inside img (blinker_row cx cy).
Proof.
  intros Hcx Hcy x y Hp. unfold blinker_row in Hp.
  rewrite !andb_true_iff, Z.eqb_eq, !Z.leb_le in Hp.
  apply in_bounds_spec. lia.
Qed.

Lemma blinker_column_inside (img : image2D) (cx cy : Z) :
  0 <= cx <= width img - 1 -> 1 <= cy <= height img - 2 ->
  inside img (blinker_column cx cy).
Proof.
  intros Hcx Hcy x y Hp. unfold blinker_column in Hp.
  rewrite !andb_true_iff, Z.eqb_eq, !Z.leb_le in Hp.
  apply in_bounds_spec. lia.
Qed.

Section PatternTick.
Context {impl : GLSLImpl}.

(** One tick on a grid that holds a pattern with all its live cells inside
    leaves the pattern Conway's rule makes of it. *)
Lemma tick_draws (st : Host.State) (pattern : Z -> Z -> bool) :
  ready st -> draws (Host.inputTexture st) pattern -> inside (Host.inputTexture st) pattern ->
  draws (Host.inputTexture (Host.simulationTick st)) (life_step pattern).
Proof.
  intros Hready Hdraw Hins. pose proof Hready as (_ & Hiw & Hih & _).
  destruct (tick_generation st Hready) as (_ & Hgen & _).
  apply (draws_same_grid _ _ _ Hgen).
  apply next_generation_draws; try assumption. now apply grid_size_fits.
Qed.

End PatternTick.

(** C7: a blinker that fits the grid, three live cells in a row on an
    otherwise empty grid, is the column of three about the same centre
    after one tick, and after two ticks every cell of the grid has its
    original value again; one tick alone does not restore it. *)
Theorem blinker_has_period_two {impl : GLSLImpl} (st : Host.State) (cx cy : Z) :
  ready st ->
  1 <= cx <= Host.gridWidth - 2 -> 1 <= cy <= Host.gridHeight - 2 ->
  draws (Host.inputTexture st) (blinker_row cx cy) ->
  let st1 := Host.simulationTick st in
  let st2 := Host.simulationTick st1 in
  draws (Host.inputTexture st1) (blinker_column cx cy)
  /\ draws (Host.inputTexture st2) (blinker_row cx cy)
  /\ (forall x y, in_bounds (Host.inputTexture st) (x, y) = true ->
        cell (Host.inputTexture st2) x y = cell (Host.inputTexture st) x y)
  /\ cell (Host.inputTexture st1) cx (cy + 1) <> cell (Host.inputTexture st) cx (cy + 1).
Proof.
  intros Hready Hcx Hcy Hdraw st1 st2.
  pose proof Hready as (_ & Hiw & Hih & _).
  destruct (tick_generation st Hready) as (Hready1 & _ & _). fold st1 in Hready1.
  pose proof Hready1 as (_ & Hiw1 & Hih1 & _).
  destruct (tick_generation st1 Hready1) as (Hready2 & _ & _). fold st2 in Hready2.
  pose proof Hready2 as (_ & Hiw2 & Hih2 & _).
  assert (Hcol : draws (Host.inputTexture st1) (blinker_column cx cy)).
  { apply (draws_ext _ (life_step (blinker_row cx cy))).
    - intros x y. apply life_step_blinker_row.
    - apply tick_draws; try assumption.
      apply blinker_row_inside; rewrite ?Hiw, ?Hih; lia. }
  assert (Hrow : draws (Host.inputTexture st2) (blinker_row cx cy)).
  { apply (draws_ext _ (life_step (blinker_column cx cy))).
    - intros x y. apply life_step_blinker_column.
    - apply tick_draws; try assumption.
      apply blinker_column_inside; rewrite ?Hiw1, ?Hih1; lia. }
  split; [assumption |]. split; [assumption |]. split.
  - intros x y Hin. rewrite (Hdraw x y Hin). apply Hrow.
    rewrite (in_bounds_same_size _ (Host.inputTexture st)) by congruence. assumption.
  - assert (Hin : in_bounds (Host.inputTexture st) (cx, cy + 1) = true).
    { apply in_bounds_spec. rewrite Hiw, Hih. lia. }
    rewrite (Hdraw cx (cy + 1) Hin).
    rewrite (Hcol cx (cy + 1)).
    + rewrite (proj1 (blinker_column_spec cx cy cx (cy + 1))) by lia.
      rewrite (proj2 (blinker_row_spec cx cy cx (cy + 1))) by lia.
      discriminate.
    + rewrite (in_bounds_same_size _ (Host.inputTexture st)) by congruence. assumption.
Qed.

Lemma blinker_has_period_two_witness :
  let st1 := Host.simulationTick (impl := zero_impl) blinker_state in
  let st2 := Host.simulationTick (impl := zero_impl) st1 in
  draws (Host.inputTexture st1) (blinker_column 200 200)
  /\ draws (Host.inputTexture st2) (blinker_row 200 200)
  /\ (forall x y, in_bounds (Host.inputTexture blinker_state) (x, y) = true ->
        cell (Host.inputTexture st2) x y = cell (Host.inputTexture blinker_state) x y)
  /\ cell (Host.inputTexture st1) 200 (200 + 1)
     <> cell (Host.inputTexture blinker_state) 200 (200 + 1).
Proof.
  apply (blinker_has_period_two (impl := zero_impl) blinker_state 200 200).
  - unfold ready. cbn. repeat split; reflexivity.
  - unfold Host.gridWidth. lia.
  - unfold Host.gridHeight. lia.
  - intros x y _. unfold cell. cbn.
    destruct (blinker_row 200 200 x y); reflexivity.
Defined.

(** ** Truncation of the stored states *)

Lemma valid_finite (s : bool) (m : positive) (e : Z) :
  F32.valid (S754_finite s m e) = true ->
  Z.max (Zpos (digits2_pos m) + e - 24) (-149) = e /\ e <= 104.
Proof.
  unfold F32.valid, valid_binary, bounded, canonical_mantissa, fexp, emin, F32.prec, F32.emax.
  rewrite andb_true_iff, Z.eqb_eq, Z.leb_le.
  change (3 - 128 - 24) with (-149). change (128 - 24) with 104. tauto.
Qed.

(** A stored float below 1.0 has no integer part. *)
Lemma below_one_no_integer_part (m : positive) (e : Z) :
  F32.valid (S754_finite false m e) = true ->
  e < -23 \/ (e = -23 /\ Zpos m < 8388608) ->
  e < 0 /\ Zpos m / 2 ^ (- e) = 0.
Proof.
  intros Hvalid Hlt. apply valid_finite in Hvalid as [Hcanon _].
  pose proof (digits2_pos_bound m) as Hup.
  pose proof (digits2_pos_lower m) as Hlow.
  assert (Hd : 0 < Zpos (digits2_pos m)) by apply Pos2Z.is_pos.
  generalize dependent (Zpos (digits2_pos m)). intros d Hcanon Hup Hlow Hd.
  assert (He : e < -23).
  { destruct Hlt as [He | [He Hm]]; [assumption | exfalso].
    subst e. assert (Hd' : d = 24) by (clear Hup Hlow; lia). subst d.
    change (2 ^ (24 - 1)) with 8388608 in Hlow. clear Hup. lia. }
  split; [lia |].
  apply Z.div_small.
  assert (Hd24 : d <= 24) by (clear Hup Hlow; lia).
  assert (H1 : 2 ^ d <= 2 ^ 24) by (apply Z.pow_le_mono_r; [reflexivity | exact Hd24]).
  assert (H2 : 2 ^ 24 <= 2 ^ (- e)).
  { apply Z.pow_le_mono_r; [reflexivity | clear - He; lia]. }
  split; [apply Pos2Z.is_nonneg |].
  eapply Z.lt_le_trans; [exact Hup |]. eapply Z.le_trans; eassumption.
Qed.

Lemma compare_with_one (m : positive) (e : Z) :
  SFcompare (S754_finite false m e) F32.one
  = Some (if e <? -23 then Lt
          else if -23 <? e then Gt
          else Z.compare (Zpos m) 8388608).
Proof.
  change (SFcompare (S754_finite false m e) F32.one)
    with (Some match e ?= -23 with
               | Lt => Lt
               | Gt => Gt
               | Eq => Pos.compare_cont Eq m 8388608
               end).
  f_equal.
  rewrite Pos.compare_cont_spec. unfold Pos.switch_Eq.
  rewrite (Z.ltb_compare e), (Z.ltb_compare (-23) e), (Z.compare_antisym e (-23)).
  change (Z.pos m ?= 8388608) with (m ?= 8388608)%positive.
  destruct (e ?= -23); cbn [CompOpp]; [| reflexivity | reflexivity].
  destruct (m ?= 8388608)%positive; reflexivity.
Qed.

Lemma ltb_one_spec (m : positive) (e : Z) :
  F32.ltb (S754_finite false m e) F32.one = true ->
  e < -23 \/ (e = -23 /\ Zpos m < 8388608).
Proof.
  unfold F32.ltb, SFltb. rewrite compare_with_one.
  destruct (Z.ltb_spec e (-23)); [left; assumption |].
  destruct (Z.ltb_spec (-23) e); [discriminate |].
  destruct (Z.compare_spec (Zpos m) 8388608); try discriminate.
  intros _. right. split; [apply Z.le_antisymm |]; assumption.
Qed.

Lemma leb_one_spec (m : positive) (e : Z) :
  F32.leb (S754_finite false m e) F32.one = true ->
  S754_finite false m e = F32.one \/ e < -23 \/ (e = -23 /\ Zpos m < 8388608).
Proof.
  unfold F32.leb, SFleb. rewrite compare_with_one.
  destruct (Z.ltb_spec e (-23)); [right; left; assumption |].
  destruct (Z.ltb_spec (-23) e); [discriminate |].
  assert (He : e = -23) by (apply Z.le_antisymm; assumption).
  destruct (Z.compare_spec (Zpos m) 8388608) as [Hm | Hm | Hm]; try discriminate; intros _.
  - left. injection Hm as ->. subst e. reflexivity.
  - right. right. split; assumption.
Qed.

Lemma nonnegative_finite (s : bool) (m : positive) (e : Z) :
  F32.leb F32.zero (S754_finite s m e) = true -> s = false.
Proof. destruct s; [intros H; cbv in H; discriminate H | reflexivity]. Qed.

Lemma positive_finite (s : bool) (m : positive) (e : Z) :
  F32.ltb F32.zero (S754_finite s m e) = true -> s = false.
Proof. destruct s; [intros H; cbv in H; discriminate H | reflexivity]. Qed.

Section Truncation.
Context {impl : GLSLImpl}.

Lemma int_of_float_small (m : positive) (e : Z) :
  e < 0 -> Zpos m / 2 ^ (- e) = 0 -> int_of_float (S754_finite false m e) = 0.
Proof.
  intros He Hdiv. unfold int_of_float, F32.trunc.
  rewrite (proj2 (Z.leb_gt 0 e) He). rewrite Hdiv. reflexivity.
Qed.

(** A stored value strictly between 0 and 1 converts to 0. *)
Lemma int_of_float_fraction (f : F32.float) :
  F32.valid f = true -> F32.ltb F32.zero f = true -> F32.ltb f F32.one = true ->
  int_of_float f = 0.
Proof.
  intros Hvalid Hpos Hlt.
  destruct f as [s | s | | s m e].
  - cbv in Hpos. discriminate Hpos.
  - destruct s; [cbv in Hpos; discriminate Hpos | cbv in Hlt; discriminate Hlt].
  - cbv in Hpos. discriminate Hpos.
  - apply positive_finite in Hpos. subst s.
    apply ltb_one_spec in Hlt.
    destruct (below_one_no_integer_part m e Hvalid Hlt) as [He Hdiv].
    now apply int_of_float_small.
Qed.

(** A stored value of the interval [0, 1] converts to 0, or it is 1.0 and
    converts to 1. *)
Lemma int_of_float_unit (f : F32.float) :
  in_unit_interval f -> int_of_float f = 0 \/ (f = F32.one /\ int_of_float f = 1).
Proof.
  intros (Hvalid & Hge & Hle).
  destruct f as [s | s | | s m e].
  - left. reflexivity.
  - destruct s; [cbv in Hge; discriminate Hge | cbv in Hle; discriminate Hle].
  - cbv in Hge. discriminate Hge.
  - apply nonnegative_finite in Hge. subst s.
    apply leb_one_spec in Hle. destruct Hle as [Hone | Hlt].
    + right. rewrite Hone. split; reflexivity.
    + left. destruct (below_one_no_integer_part m e Hvalid Hlt) as [He Hdiv].
      now apply int_of_float_small.
Qed.

Lemma neighbour_unit (img : image2D) (q : ivec2) :
  unit_cells img -> 0 <= Shader.neighbour img q <= 1.
Proof.
  intros Hunit. rewrite neighbour_contribution. unfold contribution.
  destruct (in_bounds img q) eqn:Hin; [| lia].
  destruct q as [x y]. simpl fst; simpl snd.
  destruct (int_of_float_unit _ (Hunit x y Hin)) as [H0 | [_ H1]]; lia.
Qed.

End Truncation.

Section CountIsSum.
Context {impl : GLSLImpl}.

(** The conversion is truncation toward zero: the quotient of [Z.quot] on
    the value written as a fraction, whenever that fits an [int]. *)
Lemma int_of_float_truncates (s : bool) (m : positive) (e : Z) :
  let z := Z.quot ((if s then - Zpos m else Zpos m) * 2 ^ Z.max e 0) (2 ^ Z.max (- e) 0) in
  I32.in_range z = true -> int_of_float (S754_finite s m e) = z.
Proof.
  intros z Hrange. unfold int_of_float.
  rewrite trunc_toward_zero. fold z. now rewrite Hrange.
Qed.

(** When every load contributes 0 or 1, the count of an in-grid cell is the
    plain sum of the eight converted loads around it. *)
Lemma countNeighbours_sum (img : image2D) (x y : Z) :
  (forall q, 0 <= Shader.neighbour img q <= 1) ->
  fits_int img -> in_bounds img (x, y) = true ->
  Shader.countNeighbours img (x, y)
  = fold_left Z.add (map (Shader.neighbour img) (neighbourhood (x, y))) 0.
Proof.
  intros Hbit Hfit Hin.
  destruct (neighbour_positions img x y Hfit Hin) as (Hxm & Hxp & Hym & Hyp).
  unfold Shader.countNeighbours, neighbourhood. simpl fst; simpl snd. cbv zeta.
  rewrite Hxm, Hxp, Hym, Hyp. cbn [map fold_left].
  repeat match goal with
         | |- context [Shader.neighbour img ?q] =>
             let v := fresh "v" in
             let Hv := fresh "Hv" in
             pose proof (Hbit q) as Hv;
             set (v := Shader.neighbour img q) in *; clearbody v
         end.
  repeat match goal with
         | |- context [I32.add ?a ?b] => rewrite (add_bit a b) by lia
         end.
  reflexivity.
Qed.

(** On a grid of values of [0, 1] a load contributes 1 exactly when it
    reads a cell of the grid that holds 1.0. *)
Lemma neighbour_unit_alive (img : image2D) (q : ivec2) :
  unit_cells img -> Shader.neighbour img q = if alive img q then 1 else 0.
Proof.
  intros Hunit. rewrite neighbour_contribution. unfold contribution, alive.
  destruct (in_bounds img q) eqn:Hin; [| reflexivity].
  destruct q as [x y]. simpl fst; simpl snd. cbn [andb].
  destruct (int_of_float_unit _ (Hunit x y Hin)) as [H0 | [H1 H1']].
  - destruct (SFeqb (cell img x y) F32.one) eqn:Heq; [| assumption].
    apply SFeqb_one in Heq. rewrite Heq in H0. discriminate H0.
  - rewrite H1', H1. reflexivity.
Qed.

Lemma countNeighbours_alive (img : image2D) (x y : Z) :
  (forall q, Shader.neighbour img q = if alive img q then 1 else 0) ->
  fits_int img -> in_bounds img (x, y) = true ->
  Shader.countNeighbours img (x, y) = live_neighbours img (x, y).
Proof.
  intros Halive Hfit Hin.
  destruct (neighbour_positions img x y Hfit Hin) as (Hxm & Hxp & Hym & Hyp).
  unfold Shader.countNeighbours, live_neighbours, neighbourhood.
  simpl fst; simpl snd. cbv zeta.
  rewrite Hxm, Hxp, Hym, Hyp.
  rewrite !Halive.
  simpl filter.
  destruct (alive img (x - 1, y - 1)), (alive img (x, y - 1)), (alive img (x + 1, y - 1)),
    (alive img (x - 1, y)), (alive img (x + 1, y)),
    (alive img (x - 1, y + 1)), (alive img (x, y + 1)), (alive img (x + 1, y + 1));
    reflexivity.
Qed.

End CountIsSum.

(** C10: the kernel converts each neighbour's stored state to an integer by
    truncation toward zero before it sums.  On every grid a load
    contributes the integer part of the cell it reads (the quotient that
    rounds toward zero, whenever it fits an [int]) and nothing outside the
    grid; so a stored value strictly between 0 and 1 adds 0, and a stored
    1.0 adds 1.  On a grid whose values all lie in [0, 1] each load adds 0
    or 1, the count is the plain sum of the eight converted loads, which is
    the number of neighbours that hold exactly 1.0, and it is an integer
    from 0 to 8. *)
Theorem neighbour_count_truncates {impl : GLSLImpl} (img : image2D) (p q : ivec2) :
  Shader.neighbour img q
  = (if in_bounds img q then int_of_float (cell img (fst q) (snd q)) else 0)
  /\ (forall s m e,
        in_bounds img q = true ->
        cell img (fst q) (snd q) = S754_finite s m e ->
        let z := Z.quot ((if s then - Zpos m else Zpos m) * 2 ^ Z.max e 0)
                   (2 ^ Z.max (- e) 0) in
        I32.in_range z = true -> Shader.neighbour img q = z)
  /\ (in_bounds img q = true ->
      F32.valid (cell img (fst q) (snd q)) = true ->
      F32.ltb F32.zero (cell img (fst q) (snd q)) = true ->
      F32.ltb (cell img (fst q) (snd q)) F32.one = true ->
      Shader.neighbour img q = 0)
  /\ (in_bounds img q = true -> cell img (fst q) (snd q) = F32.one ->
      Shader.neighbour img q = 1)
  /\ (unit_cells img ->
      (Shader.neighbour img q = 0
       \/ (Shader.neighbour img q = 1 /\ in_bounds img q = true
           /\ cell img (fst q) (snd q) = F32.one))
      /\ 0 <= Shader.countNeighbours img p <= 8
      /\ (fits_int img -> in_bounds img p = true ->
          Shader.countNeighbours img p
          = fold_left Z.add (map (Shader.neighbour img) (neighbourhood p)) 0
          /\ Shader.countNeighbours img p = live_neighbours img p)).
Proof.
  split; [exact (neighbour_contribution img q) |].
  split; [| split; [| split; [| intros Hunit; split; [| split]]]].
  - intros s m e Hin Hcell z Hrange.
    rewrite neighbour_contribution. unfold contribution. rewrite Hin, Hcell.
    exact (int_of_float_truncates s m e Hrange).
  - intros Hin Hvalid Hpos Hlt. rewrite neighbour_contribution. unfold contribution.
    rewrite Hin. now apply int_of_float_fraction.
  - intros Hin Hcell. rewrite neighbour_contribution. unfold contribution.
    rewrite Hin, Hcell. apply int_of_float_one.
  - rewrite neighbour_contribution. unfold contribution.
    destruct (in_bounds img q) eqn:Hin; [| left; reflexivity].
    destruct q as [x y]. simpl fst; simpl snd.
    destruct (int_of_float_unit _ (Hunit x y Hin)) as [H0 | [H1 H1']].
    + left. assumption.
    + right. repeat split; assumption.
  - apply countNeighbours_bits. intros r. now apply neighbour_unit.
  - intros Hfit Hin. destruct p as [x y]. split.
    + apply countNeighbours_sum; try assumption. intros r. now apply neighbour_unit.
    + apply countNeighbours_alive; try assumption.
      intros r. now apply neighbour_unit_alive.
Qed.

Lemma neighbour_count_truncates_witness :
  Shader.neighbour (impl := zero_impl) mixed_grid (0, 0) = 1
  /\ Shader.neighbour (impl := zero_impl) mixed_grid (1, 0) = 0
  /\ Shader.countNeighbours (impl := zero_impl) mixed_grid (1, 1) = 1.
Proof.
  assert (Hunit : unit_cells mixed_grid).
  { intros x y _. unfold in_unit_interval, cell. cbn.
    destruct ((x =? 0) && (y =? 0)); repeat split. }
  assert (Hfit : fits_int mixed_grid) by (split; cbn; discriminate).
  destruct (neighbour_count_truncates (impl := zero_impl) mixed_grid (1, 1) (0, 0))
    as (_ & _ & _ & Hone & Hcount).
  destruct (neighbour_count_truncates (impl := zero_impl) mixed_grid (1, 1) (1, 0))
    as (_ & _ & Hfrac & _ & _).
  split; [apply Hone; reflexivity |].
  split; [apply Hfrac; reflexivity |].
  destruct (Hcount Hunit) as (_ & _ & Hsum).
  destruct (Hsum Hfit eq_refl) as [_ Hlive].
  rewrite Hlive. reflexivity.
Defined.

(** ** Float additions never give a NaN out of numbers *)

Section NoNaN.
Variables prec emax : Z.

Lemma shr_1_nonneg (mrs : shr_record) : 0 <= shr_m mrs -> 0 <= shr_m (shr_1 mrs).
Proof.
  destruct mrs as [m r s]. cbn [shr_m]. intros Hm.
  destruct m as [| p | p]; [cbn; lia | | lia].
  destruct p; cbn; lia.
Qed.

Lemma iter_shr_1_nonneg (p : positive) (mrs : shr_record) :
  0 <= shr_m mrs -> 0 <= shr_m (iter_pos shr_1 p mrs).
Proof.
  revert mrs. induction p as [p IH | p IH |]; intros mrs Hm; cbn [iter_pos].
  - apply IH, IH, shr_1_nonneg, Hm.
  - apply IH, IH, Hm.
  - apply shr_1_nonneg, Hm.
Qed.

Lemma shr_fexp_nonneg (m e : Z) (l : location) :
  0 <= m -> 0 <= shr_m (fst (shr_fexp prec emax m e l)).
Proof.
  intros Hm. unfold shr_fexp, shr.
  assert (H0 : 0 <= shr_m (shr_record_of_loc m l)).
  { destruct l as [| c]; [| destruct c]; exact Hm. }
  destruct (fexp prec emax (Zdigits2 m + e) - e) as [| p | p]; cbn [fst];
    try exact H0.
  apply iter_shr_1_nonneg, H0.
Qed.

Lemma round_nearest_even_nonneg (m : Z) (l : location) :
  0 <= m -> 0 <= round_nearest_even m l.
Proof.
  intros Hm. destruct l as [| c]; [exact Hm |].
  destruct c; cbn [round_nearest_even]; [destruct (Z.even m) | |]; lia.
Qed.

Lemma binary_round_aux_not_nan (s : bool) (m e : Z) (l : location) :
  0 <= m -> binary_round_aux prec emax s m e l <> S754_nan.
Proof.
  intros Hm. unfold binary_round_aux.
  pose proof (shr_fexp_nonneg m e l Hm) as H1.
  destruct (shr_fexp prec emax m e l) as [mrs' e']. cbn [fst] in H1.
  pose proof (shr_fexp_nonneg
                (round_nearest_even (shr_m mrs') (loc_of_shr_record mrs')) e' loc_Exact
                (round_nearest_even_nonneg _ _ H1)) as H2.
  destruct (shr_fexp prec emax _ e' loc_Exact) as [mrs'' e'']. cbn [fst] in H2.
  destruct (shr_m mrs'') as [| p | p]; [discriminate | | lia].
  destruct (e'' <=? emax - prec); discriminate.
Qed.

Lemma binary_normalize_not_nan (m e : Z) (szero : bool) :
  binary_normalize prec emax m e szero <> S754_nan.
Proof.
  unfold binary_normalize, binary_round.
  destruct m as [| p | p]; [discriminate | |];
    destruct (shl_align p e _) as [mz ez]; apply binary_round_aux_not_nan; lia.
Qed.

(** Adding a finite float to a float that is not a NaN gives no NaN. *)
Lemma SFadd_finite_not_nan (x : spec_float) (s : bool) (m : positive) (e : Z) :
  x <> S754_nan -> SFadd prec emax x (S754_finite s m e) <> S754_nan.
Proof.
  intros Hx. destruct x as [sx | sx | | sx mx ex]; cbn [SFadd];
    try discriminate; [contradiction |].
  apply binary_normalize_not_nan.
Qed.

Lemma SFsub_finite_not_nan (x : spec_float) (s : bool) (m : positive) (e : Z) :
  x <> S754_nan -> SFsub prec emax x (S754_finite s m e) <> S754_nan.
Proof.
  intros Hx. destruct x as [sx | sx | | sx mx ex]; cbn [SFsub];
    try discriminate; [contradiction |].
  apply binary_normalize_not_nan.
Qed.

End NoNaN.

(** ** The viewport *)

Lemma f0_01_value : Host.f0_01 = S754_finite false 10737418 (-30).
Proof. vm_compute. reflexivity. Qed.

Lemma f0_1_value : Host.f0_1 = S754_finite false 13421773 (-27).
Proof. vm_compute. reflexivity. Qed.

Lemma strictly_positive_not_nan (f : F32.float) : strictly_positive f -> f <> S754_nan.
Proof. intros Hpos ->. cbv in Hpos. discriminate Hpos. Qed.

(** Whatever number the scale is, the clamp leaves it above zero. *)
Lemma clamp_scale_positive (v : F32.float) :
  v <> S754_nan -> strictly_positive (clamp_scale v).
Proof.
  intros Hnan. unfold clamp_scale.
  destruct (F32.leb v F32.zero) eqn:Hle.
  - rewrite f0_1_value. reflexivity.
  - destruct v as [s | s | | s m e].
    + cbv in Hle. discriminate Hle.
    + destruct s; [cbv in Hle; discriminate Hle | reflexivity].
    + contradiction.
    + destruct s; [cbv in Hle; discriminate Hle | reflexivity].
Qed.

Lemma clamp_scale_keeps_positive (v : F32.float) :
  strictly_positive v -> clamp_scale v = v.
Proof.
  intros Hpos. unfold clamp_scale.
  destruct v as [s | s | | s m e]; try (cbv in Hpos; discriminate Hpos);
    destruct s; try (cbv in Hpos; discriminate Hpos); reflexivity.
Qed.

Section Viewport.
Context {impl : GLSLImpl}.

Lemma glUseProgram_viewport (p : Host.GLprogram) (st : Host.State) :
  viewport (Host.glUseProgram p st) = viewport st.
Proof. unfold Host.glUseProgram. destruct (Host.link_status p); reflexivity. Qed.

Lemma glDispatchCompute_viewport (nx ny nz : Z) (st : Host.State) :
  viewport (Host.glDispatchCompute nx ny nz st) = viewport st.
Proof.
  unfold Host.glDispatchCompute.
  destruct (Host.programInUse st) as [p |]; [| reflexivity].
  destruct (Host.has_compute_stage p); reflexivity.
Qed.

(** A tick leaves the viewport and the running flag alone. *)
Lemma simulationTick_viewport (st : Host.State) :
  viewport (Host.simulationTick st) = viewport st.
Proof.
  unfold Host.simulationTick, Host.seq_cmd, Host.glMemoryBarrier,
    Host.glCopyImageSubData_output_to_input.
  change (viewport (Host.set_inputTexture ?i ?s)) with (viewport s).
  rewrite glDispatchCompute_viewport, glUseProgram_viewport. reflexivity.
Qed.

Lemma viewport_fields (a b : Host.State) :
  viewport a = viewport b ->
  Host.currentScale a = Host.currentScale b
  /\ Host.currentXOffset a = Host.currentXOffset b
  /\ Host.currentYOffset a = Host.currentYOffset b
  /\ Host.simulationIsRunning a = Host.simulationIsRunning b.
Proof. unfold viewport. intros H. injection H as H1 H2 H3 H4. repeat split; assumption. Qed.

(** What one call of [key_callback] does to the viewport. *)
Lemma key_callback_viewport (key scancode action mods : Z) (st : Host.State) :
  let st' := Host.key_callback key scancode action mods st in
  (pressed action = false -> st' = st)
  /\ (pressed action = true ->
      Host.currentXOffset st'
      = (if key =? Host.GLFW_KEY_D then F32.add (Host.currentXOffset st) Host.f0_01
         else if key =? Host.GLFW_KEY_A then F32.sub (Host.currentXOffset st) Host.f0_01
         else Host.currentXOffset st)
      /\ Host.currentYOffset st'
         = (if key =? Host.GLFW_KEY_W then F32.add (Host.currentYOffset st) Host.f0_01
            else if key =? Host.GLFW_KEY_S then F32.sub (Host.currentYOffset st) Host.f0_01
            else Host.currentYOffset st)
      /\ Host.currentScale st'
         = clamp_scale
             (if key =? Host.GLFW_KEY_EQUAL then F32.add (Host.currentScale st) Host.f0_1
              else if key =? Host.GLFW_KEY_MINUS then F32.sub (Host.currentScale st) Host.f0_1
              else Host.currentScale st)).
Proof.
  intros st'. subst st'. unfold Host.key_callback, pressed.
  destruct (action =? Host.GLFW_PRESS) eqn:Hpress;
    destruct (action =? Host.GLFW_REPEAT) eqn:Hrepeat; cbn [negb andb orb];
    try (split; [discriminate | intros _]);
    try (split; [reflexivity | discriminate]).
  all: destruct (viewport_fields _ _ (simulationTick_viewport st)) as (Hts & Htx & Hty & _).
  all: unfold clamp_scale.
  all: destruct (Z.eqb_spec key Host.GLFW_KEY_W) as [-> | HW];
    [cbn [Z.eqb Pos.eqb Host.GLFW_KEY_W Host.GLFW_KEY_S Host.GLFW_KEY_A Host.GLFW_KEY_D
          Host.GLFW_KEY_EQUAL Host.GLFW_KEY_MINUS];
     destruct st; cbn; destruct (F32.leb _ F32.zero); repeat split |].
  all: destruct (Z.eqb_spec key Host.GLFW_KEY_S) as [-> | HS];
    [cbn [Z.eqb Pos.eqb Host.GLFW_KEY_W Host.GLFW_KEY_S Host.GLFW_KEY_A Host.GLFW_KEY_D
          Host.GLFW_KEY_EQUAL Host.GLFW_KEY_MINUS];
     destruct st; cbn; destruct (F32.leb _ F32.zero); repeat split |].
  all: destruct (Z.eqb_spec key Host.GLFW_KEY_A) as [-> | HA];
    [cbn [Z.eqb Pos.eqb Host.GLFW_KEY_W Host.GLFW_KEY_S Host.GLFW_KEY_A Host.GLFW_KEY_D
          Host.GLFW_KEY_EQUAL Host.GLFW_KEY_MINUS];
     destruct st; cbn; destruct (F32.leb _ F32.zero); repeat split |].
  all: destruct (Z.eqb_spec key Host.GLFW_KEY_D) as [-> | HD];
    [cbn [Z.eqb Pos.eqb Host.GLFW_KEY_W Host.GLFW_KEY_S Host.GLFW_KEY_A Host.GLFW_KEY_D
          Host.GLFW_KEY_EQUAL Host.GLFW_KEY_MINUS];
     destruct st; cbn; destruct (F32.leb _ F32.zero); repeat split |].
  all: destruct (Z.eqb_spec key Host.GLFW_KEY_SPACE) as [-> | HSP];
    [cbn [Z.eqb Pos.eqb Host.GLFW_KEY_SPACE Host.GLFW_KEY_EQUAL Host.GLFW_KEY_MINUS];
     destruct st; cbn; destruct (F32.leb _ F32.zero); repeat split |].
  all: destruct (Z.eqb_spec key Host.GLFW_KEY_EQUAL) as [-> | HE];
    [destruct st; cbn; destruct (F32.leb _ F32.zero); repeat split |].
  all: destruct (Z.eqb_spec key Host.GLFW_KEY_MINUS) as [-> | HM];
    [destruct st; cbn; destruct (F32.leb _ F32.zero); repeat split |].
  all: destruct (Z.eqb_spec key Host.GLFW_KEY_T) as [-> | HT];
    [rewrite Hts; destruct (F32.leb (Host.currentScale st) F32.zero);
     cbn [Host.set_currentScale Host.currentScale Host.currentXOffset Host.currentYOffset];
     repeat split; assumption |].
  all: destruct st; cbn; destruct (F32.leb _ F32.zero); repeat split.
Qed.

End Viewport.

(** ** Start-up *)

(** When start-up reaches the frame loop: GLFW came up, the image was read
    and has the size of the grid, and the state is the initial one with the
    image in the input texture. *)
Lemma main_init_running (world : Host.World) (renderProgram : Host.GLprogram) (st : Host.State) :
  Host.main_init world = Host.Running renderProgram st ->
  Host.glfwInit_ok world = true
  /\ exists img,
       Host.image_on_disk world = Some img
       /\ Host.imgWidth img = Host.gridWidth
       /\ Host.imgHeight img = Host.gridHeight
       /\ Host.numChannels img = 3
       /\ Host.currentScale st = F32.one
       /\ Host.currentXOffset st = F32.zero
       /\ Host.currentYOffset st = F32.zero
       /\ Host.simulationIsRunning st = true
       /\ Host.inputTexture st
          = Host.glTexImage2D_RGB_UNSIGNED_BYTE Host.gridWidth Host.gridHeight
              (Host.stbi_flipped img)
       /\ Host.outputTexture st
          = Host.glTexImage2D_NULL Host.gridWidth Host.gridHeight (Host.fresh_texels world)
       /\ Host.computeProgram st
          = snd (Host.createLinkProgram world
                   [snd (Host.loadCompileShader world "gameoflife.comp"%string
                           Host.GL_COMPUTE_SHADER)])
       /\ ~ In Host.TickInvoked (Host.log st).
Proof.
  unfold Host.main_init.
  destruct (Host.glfwInit_ok world); cbn [negb]; [| discriminate].
  destruct (Host.loadCompileShader world "quad.vert"%string _) as [out1 sv] eqn:Hv.
  destruct (Host.loadCompileShader world "quad.frag"%string _) as [out2 sf] eqn:Hf.
  destruct (Host.loadCompileShader world "gameoflife.comp"%string _) as [out3 sc] eqn:Hc.
  destruct (Host.createLinkProgram world [sv; sf]) as [out4 rp] eqn:Hrp.
  destruct (Host.createLinkProgram world [sc]) as [out5 cp] eqn:Hcp.
  destruct (Host.image_on_disk world) as [img |]; [| discriminate].
  destruct (Z.eqb_spec (Host.imgWidth img) Host.gridWidth) as [Hw | Hw];
    cbn [negb orb]; [| discriminate].
  destruct (Z.eqb_spec (Host.imgHeight img) Host.gridHeight) as [Hh | Hh];
    cbn [negb orb]; [| discriminate].
  destruct (Z.eqb_spec (Host.numChannels img) 3) as [Hn | Hn];
    cbn [negb orb]; [| discriminate].
  intros Hrun. injection Hrun as <- <-.
  split; [reflexivity |]. exists img.
  cbn [Host.currentScale Host.currentXOffset Host.currentYOffset Host.simulationIsRunning
       Host.inputTexture Host.outputTexture Host.computeProgram Host.log snd].
  repeat (split; [first [assumption | reflexivity] |]).
  split; [rewrite Hcp; reflexivity |].
  assert (Hload : forall path type out sh, Host.loadCompileShader world path type = (out, sh) ->
                    ~ In Host.TickInvoked out).
  { intros path type out sh Hl Hin. unfold Host.loadCompileShader in Hl.
    destruct (Host.shader_on_disk world path); injection Hl as <- <-;
      cbn in Hin; intuition discriminate. }
  assert (Hlink : forall shaders, ~ In Host.TickInvoked (fst (Host.createLinkProgram world shaders))).
  { intros shaders Hin. unfold Host.createLinkProgram in Hin.
    destruct (Host.link_infoLog world _); cbn in Hin; intuition discriminate. }
  intros Hin. rewrite !in_app_iff in Hin.
  destruct Hin as [Hin | [Hin | [Hin | [Hin | Hin]]]].
  - exact (Hload _ _ _ _ Hv Hin).
  - exact (Hload _ _ _ _ Hf Hin).
  - exact (Hload _ _ _ _ Hc Hin).
  - apply (Hlink [sv; sf]). rewrite Hrp. exact Hin.
  - apply (Hlink [sc]). rewrite Hcp. exact Hin.
Qed.

(** ** The scale stays above zero *)

Section ScaleFloor.
Context {impl : GLSLImpl}.

Lemma key_callback_positive (key scancode action mods : Z) (st : Host.State) :
  strictly_positive (Host.currentScale st) ->
  strictly_positive (Host.currentScale (Host.key_callback key scancode action mods st)).
Proof.
  intros Hpos.
  destruct (key_callback_viewport key scancode action mods st) as [Hidle Hact].
  cbv zeta in Hidle, Hact.
  destruct (pressed action) eqn:Hp.
  - destruct (Hact eq_refl) as (_ & _ & ->).
    apply clamp_scale_positive.
    pose proof (strictly_positive_not_nan _ Hpos) as Hnan.
    rewrite f0_1_value.
    destruct (key =? Host.GLFW_KEY_EQUAL); [now apply SFadd_finite_not_nan |].
    destruct (key =? Host.GLFW_KEY_MINUS); [now apply SFsub_finite_not_nan |].
    assumption.
  - rewrite (Hidle eq_refl). assumption.
Qed.

Lemma glfwPollEvents_positive (events : list Host.KeyEvent) (st : Host.State) :
  strictly_positive (Host.currentScale st) ->
  strictly_positive (Host.currentScale (Host.glfwPollEvents events st)).
Proof.
  unfold Host.glfwPollEvents. revert st.
  induction events as [| e events IH]; intros st Hpos; cbn [fold_left]; [assumption |].
  apply IH. now apply key_callback_positive.
Qed.

Lemma frame_positive (renderProgram : Host.GLprogram) (events : list Host.KeyEvent)
    (st : Host.State) :
  strictly_positive (Host.currentScale st) ->
  strictly_positive (Host.currentScale (Host.frame renderProgram events st)).
Proof.
  intros Hpos. unfold Host.frame, Host.seq_cmd.
  apply glfwPollEvents_positive.
  destruct (viewport_fields _ _ (glUseProgram_viewport renderProgram
              (if Host.simulationIsRunning st then Host.simulationTick st else st)))
    as (-> & _).
  destruct (Host.simulationIsRunning st); [| assumption].
  destruct (viewport_fields _ _ (simulationTick_viewport st)) as (-> & _). assumption.
Qed.

Lemma main_loop_positive (renderProgram : Host.GLprogram) (frames : list (list Host.KeyEvent))
    (st : Host.State) :
  strictly_positive (Host.currentScale st) ->
  strictly_positive (Host.currentScale (Host.main_loop renderProgram frames st)).
Proof.
  unfold Host.main_loop. revert st.
  induction frames as [| events frames IH]; intros st Hpos; cbn [fold_left]; [assumption |].
  apply IH. now apply frame_positive.
Qed.

End ScaleFloor.

(** C9: a key event changes the viewport by the fixed steps only: a pan key
    adds or subtracts 0.01 on its offset, a zoom key adds or subtracts 0.1 on
    the scale, a scale that is not above zero is reset to 0.1, a key release
    changes nothing; and from the start of the program on, through every
    sequence of key events, the scale is strictly greater than zero. *)
Theorem viewport_moves_by_fixed_steps {impl : GLSLImpl} :
  (forall key scancode action mods st,
     let st' := Host.key_callback key scancode action mods st in
     (pressed action = false -> st' = st)
     /\ (pressed action = true ->
         Host.currentXOffset st'
         = (if key =? Host.GLFW_KEY_D then F32.add (Host.currentXOffset st) Host.f0_01
            else if key =? Host.GLFW_KEY_A then F32.sub (Host.currentXOffset st) Host.f0_01
            else Host.currentXOffset st)
         /\ Host.currentYOffset st'
            = (if key =? Host.GLFW_KEY_W then F32.add (Host.currentYOffset st) Host.f0_01
               else if key =? Host.GLFW_KEY_S then F32.sub (Host.currentYOffset st) Host.f0_01
               else Host.currentYOffset st)
         /\ Host.currentScale st'
            = clamp_scale
                (if key =? Host.GLFW_KEY_EQUAL then F32.add (Host.currentScale st) Host.f0_1
                 else if key =? Host.GLFW_KEY_MINUS
                      then F32.sub (Host.currentScale st) Host.f0_1
                 else Host.currentScale st)))
  /\ Host.f0_01 = S754_finite false 10737418 (-30)
  /\ Host.f0_1 = S754_finite false 13421773 (-27)
  /\ (forall v, v <> S754_nan ->
        strictly_positive (clamp_scale v)
        /\ (F32.leb v F32.zero = true -> clamp_scale v = Host.f0_1)
        /\ (strictly_positive v -> clamp_scale v = v))
  /\ (forall events st, strictly_positive (Host.currentScale st) ->
        strictly_positive (Host.currentScale (Host.glfwPollEvents events st)))
  /\ (forall world renderProgram st frames,
        Host.main_init world = Host.Running renderProgram st ->
        strictly_positive (Host.currentScale (Host.main_loop renderProgram frames st))).
Proof.
  split.
  { intros key scancode action mods st.
    exact (key_callback_viewport key scancode action mods st). }
  split; [exact f0_01_value |]. split; [exact f0_1_value |].
  split; [| split].
  - intros v Hnan. split; [now apply clamp_scale_positive |]. split.
    + intros Hle. unfold clamp_scale. now rewrite Hle.
    + apply clamp_scale_keeps_positive.
  - apply glfwPollEvents_positive.
  - intros world rp st frames Hrun. apply main_loop_positive.
    apply main_init_running in Hrun as (_ & img & _ & _ & _ & _ & Hscale & _).
    rewrite Hscale. reflexivity.
Qed.

Lemma viewport_moves_by_fixed_steps_witness :
  strictly_positive
    (Host.currentScale (Host.glfwPollEvents (impl := zero_impl) zoom_out_events blinker_state)).
Proof.
  apply (proj1 (proj2 (proj2 (proj2 (proj2
           (viewport_moves_by_fixed_steps (impl := zero_impl))))))).
  reflexivity.
Defined.

(** ** The loader *)

Lemma nth_map_Zrange {A : Type} (f : Z -> A) (n i : Z) (d : A) :
  0 <= i < n -> nth (Z.to_nat i) (map f (Host.Zrange n)) d = f i.
Proof.
  intros Hi. unfold Host.Zrange. rewrite map_map.
  rewrite (nth_indep _ d (f (Z.of_nat 0))) by (rewrite length_map, length_seq; lia).
  rewrite (map_nth (fun k => f (Z.of_nat k))).
  rewrite seq_nth by lia. f_equal. lia.
Qed.

(** Row [y] of the flipped data is row [imgHeight - 1 - y] of the picture. *)
Lemma stbi_flipped_byte (img : Host.Image) (col y : Z) :
  0 <= y < Host.imgHeight img ->
  0 <= col < Host.imgWidth img * Host.numChannels img ->
  nth (Z.to_nat (y * (Host.imgWidth img * Host.numChannels img) + col))
    (Host.stbi_flipped img) x00
  = nth (Z.to_nat ((Host.imgHeight img - 1 - y) * (Host.imgWidth img * Host.numChannels img)
                   + col))
      (Host.pixels img) x00.
Proof.
  intros Hy Hcol. unfold Host.stbi_flipped. cbv zeta.
  set (rb := Host.imgWidth img * Host.numChannels img) in *.
  rewrite nth_map_Zrange by nia.
  replace (y * rb + col) with (col + y * rb) by lia.
  rewrite Z.div_add, Z.mod_add by lia.
  rewrite Z.div_small, Z.mod_small by lia.
  do 2 f_equal.
Qed.

Lemma unpack_row_stride_grid : Host.unpack_row_stride Host.gridWidth = Host.gridWidth * 3.
Proof. reflexivity. Qed.

(** The byte the texture upload reads for channel [k] of the texel
    ([x], [y]) is the byte of the pixel in column [x] of row
    [gridHeight - 1 - y] of the picture. *)
Lemma uploaded_byte (img : Host.Image) (x y k : Z) :
  Host.imgWidth img = Host.gridWidth -> Host.imgHeight img = Host.gridHeight ->
  Host.numChannels img = 3 ->
  0 <= x < Host.gridWidth -> 0 <= y < Host.gridHeight -> 0 <= k < 3 ->
  nth (Z.to_nat (y * Host.unpack_row_stride Host.gridWidth + 3 * x + k))
    (Host.stbi_flipped img) x00
  = pixel_at img x (Host.gridHeight - 1 - y) k.
Proof.
  intros Hw Hh Hn Hx Hy Hk. rewrite unpack_row_stride_grid.
  pose proof (stbi_flipped_byte img (3 * x + k) y) as Hbyte.
  rewrite Hw, Hh, Hn in Hbyte.
  replace (y * (Host.gridWidth * 3) + 3 * x + k)
    with (y * (Host.gridWidth * 3) + (3 * x + k)) by lia.
  rewrite Hbyte by lia.
  unfold pixel_at. rewrite Hw, Hn. do 2 f_equal. lia.
Qed.

Lemma unorm8_unit (c : byte) : in_unit_interval (Host.unorm8 c).
Proof. destruct c; repeat split; vm_compute; reflexivity. Qed.

Lemma unorm8_zero (c : byte) : Host.unorm8 c = F32.zero <-> c = x00.
Proof.
  split; [| intros ->; vm_compute; reflexivity].
  destruct c; intros H; try reflexivity; vm_compute in H; discriminate H.
Qed.

Lemma unorm8_one (c : byte) : Host.unorm8 c = F32.one <-> c = xff.
Proof.
  split; [| intros ->; vm_compute; reflexivity].
  destruct c; intros H; try reflexivity; vm_compute in H; discriminate H.
Qed.

(** C8: the loader does not threshold.  For a picture of the size of the
    grid with three channels, start-up reaches the frame loop with an input
    texture whose texel ([x], [y]) holds the three bytes of the pixel in
    column [x] of row [gridHeight - 1 - y] of the picture (rows flipped),
    each as the float [c / 255], and alpha 1; that float lies in [0, 1], is
    0 only for the byte 0 and 1 only for the byte 255. *)
Theorem loader_stores_channels_as_is (world : Host.World) (img : Host.Image) :
  Host.glfwInit_ok world = true ->
  Host.image_on_disk world = Some img ->
  Host.imgWidth img = Host.gridWidth ->
  Host.imgHeight img = Host.gridHeight ->
  Host.numChannels img = 3 ->
  (exists renderProgram st,
     Host.main_init world = Host.Running renderProgram st
     /\ width (Host.inputTexture st) = Host.gridWidth
     /\ height (Host.inputTexture st) = Host.gridHeight
     /\ forall x y, 0 <= x < Host.gridWidth -> 0 <= y < Host.gridHeight ->
          texels (Host.inputTexture st) x y
          = Vec4.Build (Host.unorm8 (pixel_at img x (Host.gridHeight - 1 - y) 0))
              (Host.unorm8 (pixel_at img x (Host.gridHeight - 1 - y) 1))
              (Host.unorm8 (pixel_at img x (Host.gridHeight - 1 - y) 2))
              F32.one)
  /\ (forall c, in_unit_interval (Host.unorm8 c)
               /\ (Host.unorm8 c = F32.zero <-> c = x00)
               /\ (Host.unorm8 c = F32.one <-> c = xff)
               /\ (c <> x00 -> c <> xff -> ~ is_binary (Host.unorm8 c))).
Proof.
  intros Hinit Himg Hw Hh Hn. split.
  - unfold Host.main_init. rewrite Hinit, Himg, Hw, Hh, Hn. cbn [negb].
    destruct (Host.loadCompileShader world "quad.vert"%string _) as [out1 sv].
    destruct (Host.loadCompileShader world "quad.frag"%string _) as [out2 sf].
    destruct (Host.loadCompileShader world "gameoflife.comp"%string _) as [out3 sc].
    destruct (Host.createLinkProgram world [sv; sf]) as [out4 rp].
    destruct (Host.createLinkProgram world [sc]) as [out5 cp].
    rewrite !Z.eqb_refl. cbn [negb orb].
    eexists. eexists. split; [reflexivity |].
    cbn [Host.inputTexture Host.glTexImage2D_RGB_UNSIGNED_BYTE width height texels].
    split; [reflexivity |]. split; [reflexivity |].
    intros x y Hx Hy.
    rewrite !(uploaded_byte img x y) by (assumption || lia).
    reflexivity.
  - intros c. split; [apply unorm8_unit |].
    split; [apply unorm8_zero |]. split; [apply unorm8_one |].
    intros H0 H1 [Hz | Ho].
    + now apply unorm8_zero in Hz.
    + now apply unorm8_one in Ho.
Qed.

Lemma loader_stores_channels_as_is_witness :
  (exists renderProgram st,
     Host.main_init (world_with (Some grey_picture) []) = Host.Running renderProgram st
     /\ texels (Host.inputTexture st) 0 0
        = Vec4.Build (Host.unorm8 (pixel_at grey_picture 0 (Host.gridHeight - 1 - 0) 0))
            (Host.unorm8 (pixel_at grey_picture 0 (Host.gridHeight - 1 - 0) 1))
            (Host.unorm8 (pixel_at grey_picture 0 (Host.gridHeight - 1 - 0) 2))
            F32.one)
  /\ ~ is_binary (Host.unorm8 x80).
Proof.
  destruct (loader_stores_channels_as_is (world_with (Some grey_picture) []) grey_picture
              eq_refl eq_refl eq_refl eq_refl eq_refl) as [(rp & st & Hrun & _ & _ & Htex) Hbyte].
  split.
  - exists rp, st. split; [exact Hrun |].
    apply Htex; unfold Host.gridWidth, Host.gridHeight; lia.
  - apply (Hbyte x80); discriminate.
Defined.

(** ** Start-up errors *)

Lemma loadCompileShader_no_tick (world : Host.World) (path : string) (type : Z) :
  ~ In Host.TickInvoked (fst (Host.loadCompileShader world path type)).
Proof.
  unfold Host.loadCompileShader.
  destruct (Host.shader_on_disk world path); cbn; intuition discriminate.
Qed.

Lemma createLinkProgram_no_tick (world : Host.World) (shaders : list Host.GLshader) :
  ~ In Host.TickInvoked (fst (Host.createLinkProgram world shaders)).
Proof.
  unfold Host.createLinkProgram.
  destruct (Host.link_infoLog world _); cbn; intuition discriminate.
Qed.

Lemma picture_report_no_tick (picture : option Host.Image) :
  ~ In Host.TickInvoked (picture_report picture).
Proof. destruct picture; cbn; intuition discriminate. Qed.

(** Start-up with a picture it refuses: no state, and the report last. *)
Lemma main_init_bad_picture (world : Host.World) :
  bad_picture (Host.image_on_disk world) ->
  exists code out,
    Host.main_init world = Host.Exit code out
    /\ code <> 0
    /\ ~ In Host.TickInvoked out
    /\ (Host.glfwInit_ok world = true ->
        code = 1
        /\ exists before, out = before ++ picture_report (Host.image_on_disk world)).
Proof.
  intros Hbad. unfold Host.main_init.
  destruct (Host.glfwInit_ok world); cbn [negb].
  2:{ eexists. eexists. split; [reflexivity |]. split; [discriminate |].
      split; [cbn; intuition discriminate | discriminate]. }
  pose proof (loadCompileShader_no_tick world "quad.vert"%string Host.GL_VERTEX_SHADER) as N1.
  pose proof (loadCompileShader_no_tick world "quad.frag"%string Host.GL_FRAGMENT_SHADER) as N2.
  pose proof (loadCompileShader_no_tick world "gameoflife.comp"%string Host.GL_COMPUTE_SHADER)
    as N3.
  destruct (Host.loadCompileShader world "quad.vert"%string _) as [out1 sv].
  destruct (Host.loadCompileShader world "quad.frag"%string _) as [out2 sf].
  destruct (Host.loadCompileShader world "gameoflife.comp"%string _) as [out3 sc].
  pose proof (createLinkProgram_no_tick world [sv; sf]) as N4.
  pose proof (createLinkProgram_no_tick world [sc]) as N5.
  destruct (Host.createLinkProgram world [sv; sf]) as [out4 rp].
  destruct (Host.createLinkProgram world [sc]) as [out5 cp].
  cbn [fst] in N1, N2, N3, N4, N5.
  assert (Hout : ~ In Host.TickInvoked (out1 ++ out2 ++ out3 ++ out4 ++ out5)).
  { rewrite !in_app_iff. tauto. }
  destruct (Host.image_on_disk world) as [img |]; cbn [bad_picture] in Hbad.
  - assert (Hcond : negb (Host.imgWidth img =? Host.gridWidth)
                    || negb (Host.imgHeight img =? Host.gridHeight)
                    || negb (Host.numChannels img =? 3) = true).
    { destruct (Z.eqb_spec (Host.imgWidth img) Host.gridWidth);
        destruct (Z.eqb_spec (Host.imgHeight img) Host.gridHeight);
        destruct (Z.eqb_spec (Host.numChannels img) 3); try reflexivity.
      tauto. }
    rewrite Hcond.
    eexists. eexists. split; [reflexivity |]. split; [discriminate |]. split.
    + rewrite in_app_iff. intros [H | H]; [tauto |].
      exact (picture_report_no_tick (Some img) H).
    + intros _. split; [reflexivity |]. eexists. reflexivity.
  - eexists. eexists. split; [reflexivity |]. split; [discriminate |]. split.
    + rewrite in_app_iff. intros [H | H]; [tauto |].
      exact (picture_report_no_tick None H).
    + intros _. split; [reflexivity |]. eexists. reflexivity.
Qed.

(** C6: when the initial-state picture is missing, or its width, height or
    channel count is not that of the grid, start-up creates no state,
    [main] returns a non-zero code and no tick is ever attempted; once GLFW
    is up the code is 1 and the last thing written is the report: for a
    mismatch, the expected and the actual sizes. *)
Theorem bad_picture_stops_before_any_tick {impl : GLSLImpl} (world : Host.World) :
  bad_picture (Host.image_on_disk world) ->
  (exists code out, Host.main_init world = Host.Exit code out)
  /\ fst (Host.main world) <> 0
  /\ ~ In Host.TickInvoked (snd (Host.main world))
  /\ (Host.glfwInit_ok world = true ->
      fst (Host.main world) = 1
      /\ exists before,
           snd (Host.main world) = before ++ picture_report (Host.image_on_disk world)).
Proof.
  intros Hbad.
  destruct (main_init_bad_picture world Hbad) as (code & out & Hexit & Hcode & Htick & Hrep).
  unfold Host.main. rewrite Hexit. cbn [fst snd].
  split; [exists code, out; reflexivity |]. repeat split; try assumption.
  - now apply Hrep.
  - now apply Hrep.
Qed.

Lemma bad_picture_stops_before_any_tick_witness :
  fst (Host.main (impl := zero_impl) (world_with (Some narrow_picture) [[]])) = 1
  /\ ~ In Host.TickInvoked
        (snd (Host.main (impl := zero_impl) (world_with (Some narrow_picture) [[]]))).
Proof.
  assert (Hbad : bad_picture (Host.image_on_disk (world_with (Some narrow_picture) [[]]))).
  { left. cbn. unfold Host.gridWidth. lia. }
  destruct (bad_picture_stops_before_any_tick (impl := zero_impl)
              (world_with (Some narrow_picture) [[]]) Hbad) as (_ & _ & Htick & Hrep).
  split; [apply Hrep; reflexivity | exact Htick].
Defined.

(** ** What is written, and the ticks, in the frame loop *)

Section Log.
Context {impl : GLSLImpl}.

Lemma glUseProgram_log (p : Host.GLprogram) (st : Host.State) :
  Host.log (Host.glUseProgram p st) = Host.log st.
Proof. unfold Host.glUseProgram. destruct (Host.link_status p); reflexivity. Qed.

Lemma glDispatchCompute_log (nx ny nz : Z) (st : Host.State) :
  Host.log (Host.glDispatchCompute nx ny nz st) = Host.log st.
Proof.
  unfold Host.glDispatchCompute.
  destruct (Host.programInUse st) as [p |]; [| reflexivity].
  destruct (Host.has_compute_stage p); reflexivity.
Qed.

(** Every call of [simulationTick] is recorded, whatever the state. *)
Lemma simulationTick_log (st : Host.State) :
  Host.log (Host.simulationTick st) = Host.log st ++ [Host.TickInvoked].
Proof.
  unfold Host.simulationTick, Host.seq_cmd, Host.glMemoryBarrier,
    Host.glCopyImageSubData_output_to_input.
  change (Host.log (Host.set_inputTexture ?i ?s)) with (Host.log s).
  rewrite glDispatchCompute_log, glUseProgram_log. reflexivity.
Qed.

(** The key handler writes nothing; it records a tick exactly when [T] is
    pressed or repeated. *)
Lemma key_callback_log (key scancode action mods : Z) (st : Host.State) :
  Host.log (Host.key_callback key scancode action mods st)
  = Host.log st
    ++ (if pressed action && (key =? Host.GLFW_KEY_T) then [Host.TickInvoked] else []).
Proof.
  unfold Host.key_callback, pressed.
  destruct ((action =? Host.GLFW_PRESS) || (action =? Host.GLFW_REPEAT)) eqn:Hp.
  - apply orb_true_iff in Hp.
    assert (Hn : negb (action =? Host.GLFW_PRESS) && negb (action =? Host.GLFW_REPEAT) = false).
    { destruct Hp as [-> | ->]; [reflexivity | apply andb_false_r]. }
    rewrite Hn. cbn [andb].
    assert (Hclamp : forall s, Host.log (if F32.leb (Host.currentScale s) F32.zero
                                         then Host.set_currentScale Host.f0_1 s else s)
                               = Host.log s).
    { intros s. destruct (F32.leb _ _); reflexivity. }
    rewrite Hclamp.
    destruct (Z.eqb_spec key Host.GLFW_KEY_W) as [-> | HW]; [now rewrite app_nil_r |].
    destruct (Z.eqb_spec key Host.GLFW_KEY_S) as [-> | HS]; [now rewrite app_nil_r |].
    destruct (Z.eqb_spec key Host.GLFW_KEY_A) as [-> | HA]; [now rewrite app_nil_r |].
    destruct (Z.eqb_spec key Host.GLFW_KEY_D) as [-> | HD]; [now rewrite app_nil_r |].
    destruct (Z.eqb_spec key Host.GLFW_KEY_SPACE) as [-> | HSP]; [now rewrite app_nil_r |].
    destruct (Z.eqb_spec key Host.GLFW_KEY_EQUAL) as [-> | HE]; [now rewrite app_nil_r |].
    destruct (Z.eqb_spec key Host.GLFW_KEY_MINUS) as [-> | HM]; [now rewrite app_nil_r |].
    destruct (Z.eqb_spec key Host.GLFW_KEY_T) as [-> | HT].
    + apply simulationTick_log.
    + now rewrite app_nil_r.
  - apply orb_false_iff in Hp as [-> ->]. cbn [negb andb]. now rewrite app_nil_r.
Qed.

Lemma glfwPollEvents_log (events : list Host.KeyEvent) (st : Host.State) :
  exists more, Host.log (Host.glfwPollEvents events st) = Host.log st ++ more.
Proof.
  unfold Host.glfwPollEvents. revert st.
  induction events as [| e events IH]; intros st; cbn [fold_left].
  - exists []. now rewrite app_nil_r.
  - destruct (IH (Host.key_callback (Host.ev_key e) (Host.ev_scancode e) (Host.ev_action e)
                    (Host.ev_mods e) st)) as [more Hmore].
    rewrite Hmore, key_callback_log, <- app_assoc. eexists. reflexivity.
Qed.

Lemma frame_log (renderProgram : Host.GLprogram) (events : list Host.KeyEvent)
    (st : Host.State) :
  exists more,
    Host.log (Host.frame renderProgram events st)
    = Host.log st ++ (if Host.simulationIsRunning st then [Host.TickInvoked] else []) ++ more.
Proof.
  unfold Host.frame, Host.seq_cmd.
  destruct (glfwPollEvents_log events
              (Host.glUseProgram renderProgram
                 (if Host.simulationIsRunning st then Host.simulationTick st else st)))
    as [more Hmore].
  exists more. rewrite Hmore, glUseProgram_log.
  destruct (Host.simulationIsRunning st).
  - now rewrite simulationTick_log, <- app_assoc.
  - reflexivity.
Qed.

Lemma main_loop_log (renderProgram : Host.GLprogram) (frames : list (list Host.KeyEvent))
    (st : Host.State) :
  exists more, Host.log (Host.main_loop renderProgram frames st) = Host.log st ++ more.
Proof.
  unfold Host.main_loop. revert st.
  induction frames as [| events frames IH]; intros st; cbn [fold_left].
  - exists []. now rewrite app_nil_r.
  - destruct (IH (Host.frame renderProgram events st)) as [more Hmore].
    destruct (frame_log renderProgram events st) as [more' Hmore'].
    rewrite Hmore, Hmore', <- !app_assoc. eexists. reflexivity.
Qed.

End Log.

(** With GLFW up and a picture of the right size, start-up reaches the frame
    loop whatever became of the shaders; its output so far is what the five
    build steps wrote. *)
Lemma main_init_good_picture (world : Host.World) (img : Host.Image) :
  Host.glfwInit_ok world = true ->
  Host.image_on_disk world = Some img ->
  Host.imgWidth img = Host.gridWidth ->
  Host.imgHeight img = Host.gridHeight ->
  Host.numChannels img = 3 ->
  exists renderProgram st,
    Host.main_init world = Host.Running renderProgram st
    /\ Host.simulationIsRunning st = true
    /\ Host.log st
       = fst (Host.loadCompileShader world "quad.vert"%string Host.GL_VERTEX_SHADER)
         ++ fst (Host.loadCompileShader world "quad.frag"%string Host.GL_FRAGMENT_SHADER)
         ++ fst (Host.loadCompileShader world "gameoflife.comp"%string Host.GL_COMPUTE_SHADER)
         ++ fst (Host.createLinkProgram world
                   [snd (Host.loadCompileShader world "quad.vert"%string Host.GL_VERTEX_SHADER);
                    snd (Host.loadCompileShader world "quad.frag"%string
                           Host.GL_FRAGMENT_SHADER)])
         ++ fst (Host.createLinkProgram world
                   [snd (Host.loadCompileShader world "gameoflife.comp"%string
                           Host.GL_COMPUTE_SHADER)]).
Proof.
  intros Hinit Himg Hw Hh Hn.
  unfold Host.main_init. rewrite Hinit, Himg, Hw, Hh, Hn. cbn [negb].
  destruct (Host.loadCompileShader world "quad.vert"%string _) as [out1 sv].
  destruct (Host.loadCompileShader world "quad.frag"%string _) as [out2 sf].
  destruct (Host.loadCompileShader world "gameoflife.comp"%string _) as [out3 sc].
  cbn [fst snd].
  destruct (Host.createLinkProgram world [sv; sf]) as [out4 rp].
  destruct (Host.createLinkProgram world [sc]) as [out5 cp].
  rewrite !Z.eqb_refl. cbn [negb orb].
  eexists. eexists. split; [reflexivity |]. split; reflexivity.
Qed.

(** C5, as the code has it: a shader that fails to compile, or a program
    that fails to link, is reported, but nothing stops: with GLFW up and a
    good picture, [main] goes on to the frame loop, calls [simulationTick]
    in the first frame, and returns 0. *)
Theorem shader_failure_is_reported_but_ticks_run {impl : GLSLImpl}
    (world : Host.World) (img : Host.Image)
    (events : list Host.KeyEvent) (later : list (list Host.KeyEvent)) :
  Host.glfwInit_ok world = true ->
  Host.image_on_disk world = Some img ->
  Host.imgWidth img = Host.gridWidth ->
  Host.imgHeight img = Host.gridHeight ->
  Host.numChannels img = 3 ->
  Host.frames world = events :: later ->
  fst (Host.main world) = 0
  /\ In Host.TickInvoked (snd (Host.main world))
  /\ (forall infoLog,
        Host.shader_on_disk world "gameoflife.comp"%string = Host.CompileFails infoLog ->
        In (Host.Cerr ("Shader compilation error in " ++ "gameoflife.comp" ++ " :"
                       ++ Host.endl ++ infoLog ++ Host.endl)%string)
          (snd (Host.main world)))
  /\ (forall infoLog,
        Host.link_infoLog world
          (filter Host.is_shader_object
             [snd (Host.loadCompileShader world "gameoflife.comp"%string
                     Host.GL_COMPUTE_SHADER)])
        = Some infoLog ->
        In (Host.Cout ("Shader link error:" ++ Host.endl ++ infoLog ++ Host.endl)%string)
          (snd (Host.main world))).
Proof.
  intros Hinit Himg Hw Hh Hn Hframes.
  destruct (main_init_good_picture world img Hinit Himg Hw Hh Hn)
    as (rp & st & Hrun & Hflag & Hlog).
  unfold Host.main. rewrite Hrun, Hframes. cbn [fst snd].
  change (Host.main_loop rp (events :: later) st)
    with (Host.main_loop rp later (Host.frame rp events st)).
  destruct (main_loop_log rp later (Host.frame rp events st)) as [more Hmore].
  destruct (frame_log rp events st) as [more' Hmore'].
  rewrite Hflag in Hmore'. rewrite Hmore, Hmore', Hlog.
  split; [reflexivity |]. split; [| split].
  - rewrite !in_app_iff. cbn. tauto.
  - intros infoLog Hfail. apply in_or_app. left. apply in_or_app. left.
    apply in_or_app. right. apply in_or_app. right. apply in_or_app. left.
    unfold Host.loadCompileShader. rewrite Hfail. cbn [fst]. left. reflexivity.
  - intros infoLog Hfail. apply in_or_app. left. apply in_or_app. left.
    apply in_or_app. right. apply in_or_app. right. apply in_or_app. right.
    apply in_or_app. right.
    unfold Host.createLinkProgram at 1. rewrite Hfail. cbn [fst]. left. reflexivity.
Qed.

Lemma shader_failure_is_reported_but_ticks_run_witness :
  fst (Host.main (impl := zero_impl) broken_shader_world) = 0
  /\ In Host.TickInvoked (snd (Host.main (impl := zero_impl) broken_shader_world))
  /\ In (Host.Cerr ("Shader compilation error in " ++ "gameoflife.comp" ++ " :"
                    ++ Host.endl ++ "0:1: syntax error" ++ Host.endl)%string)
       (snd (Host.main (impl := zero_impl) broken_shader_world)).
Proof.
  destruct (shader_failure_is_reported_but_ticks_run (impl := zero_impl)
              broken_shader_world grey_picture [] []
              eq_refl eq_refl eq_refl eq_refl eq_refl eq_refl)
    as (Hcode & Htick & Hcerr & _).
  split; [exact Hcode |]. split; [exact Htick |].
  apply Hcerr. reflexivity.
Defined.
